(** * Center Artwork Tool: the form-state engine of [src/App.tsx]

    A shallow embedding of the reducer, of [NumberHandler] and of
    [calculateCenter], together with the ECMAScript built-ins they call
    ([String.prototype.trim], [String.prototype.split], [RegExp.prototype.test],
    [Number], [parseFloat], [Math.round], [Number.prototype.toString] and
    IEEE-754 binary64 arithmetic).

    JavaScript strings are sequences of UTF-16 code units; JavaScript numbers
    are binary64 values, modelled by [spec_float] with [prec = 53] and
    [emax = 1024], whose operations are exact integer computations. *)

From Stdlib Require Import ZArith NArith List Bool String Ascii Lia.
From Stdlib Require Import Floats.SpecFloat.
Import ListNotations.

Local Open Scope Z_scope.

(* ------------------------------------------------------------------ *)
(** ** Strings *)

(** A JavaScript string: the list of its UTF-16 code units. *)
Definition jsstring := list N.

(** The code units of an ASCII literal of the source. *)
Definition lit (s : string) : jsstring :=
  map N_of_ascii (list_ascii_of_string s).

(** [length] of a string, as [text.length] reads it. *)
Definition str_length (s : jsstring) : Z := Z.of_nat (List.length s).

Module JSString.

(** WhiteSpace and LineTerminator code units (ECMAScript 12.2, 12.3):
    TAB, LF, VT, FF, CR, SP, NBSP, the Unicode space separators, LS, PS
    and the byte order mark. *)
Definition isWhiteSpace (c : N) : bool :=
  ((9 <=? c) && (c <=? 13) || (c =? 32) || (c =? 160) || (c =? 5760)
   || (8192 <=? c) && (c <=? 8202) || (c =? 8232) || (c =? 8233)
   || (c =? 8239) || (c =? 8287) || (c =? 12288) || (c =? 65279))%N.

Fixpoint dropWhile (p : N -> bool) (s : jsstring) : jsstring :=
  match s with
  | [] => []
  | c :: t => if p c then dropWhile p t else s
  end.

Definition trimStart (s : jsstring) : jsstring := dropWhile isWhiteSpace s.

Definition trimEnd (s : jsstring) : jsstring :=
  rev (dropWhile isWhiteSpace (rev s)).

(** [String.prototype.trim] *)
Definition trim (s : jsstring) : jsstring := trimEnd (trimStart s).

(** [String.prototype.split] with a separator of one code unit: the
    pieces between the occurrences of [sep], empty pieces included. *)
Fixpoint split (sep : N) (s : jsstring) : list jsstring :=
  match s with
  | [] => [[]]
  | c :: t =>
      if (c =? sep)%N then [] :: split sep t
      else match split sep t with
           | w :: ws => (c :: w) :: ws
           | [] => [[c]]
           end
  end.

(** Indexing an array of strings; out of range is [undefined], which the
    callers below never meet ([split] returns at least one piece). *)
Definition index0 (l : list jsstring) : jsstring := hd [] l.

(** The decimal digits [0] to [9]. *)
Definition isDigit (c : N) : bool := ((48 <=? c) && (c <=? 57))%N.

Fixpoint takeWhile (p : N -> bool) (s : jsstring) : jsstring :=
  match s with
  | [] => []
  | c :: t => if p c then c :: takeWhile p t else []
  end.

Fixpoint startsWith (p s : jsstring) : option jsstring :=
  match p with
  | [] => Some s
  | a :: p' =>
      match s with
      | b :: s' => if (a =? b)%N then startsWith p' s' else None
      | [] => None
      end
  end.

End JSString.

(* ------------------------------------------------------------------ *)
(** ** Regular expressions *)

Module RegExp.

(** The fragment of the pattern language the source uses: single code
    units, the class [\d], sequencing, [?] and [*]. *)
Inductive re : Type :=
| Never : re
| Empty : re
| Chr : N -> re
| Digit : re
| Seq : re -> re -> re
| Alt : re -> re -> re
| Star : re -> re.

Definition Opt (r : re) : re := Alt r Empty.

(** [\d] is exactly [0-9]. *)
Definition isDigit : N -> bool := JSString.isDigit.

Fixpoint nullable (r : re) : bool :=
  match r with
  | Never => false
  | Empty => true
  | Chr _ => false
  | Digit => false
  | Seq a b => nullable a && nullable b
  | Alt a b => nullable a || nullable b
  | Star _ => true
  end.

Fixpoint deriv (c : N) (r : re) : re :=
  match r with
  | Never => Never
  | Empty => Never
  | Chr d => if (c =? d)%N then Empty else Never
  | Digit => if isDigit c then Empty else Never
  | Seq a b =>
      if nullable a then Alt (Seq (deriv c a) b) (deriv c b)
      else Seq (deriv c a) b
  | Alt a b => Alt (deriv c a) (deriv c b)
  | Star a => Seq (deriv c a) (Star a)
  end.

(** [/^r$/.test(s)]: the whole of [s] is a word of [r]. *)
Fixpoint test (r : re) (s : jsstring) : bool :=
  match s with
  | [] => nullable r
  | c :: t => test (deriv c r) t
  end.

(** Declarative meaning of a pattern. *)
Inductive matches : re -> jsstring -> Prop :=
| MEmpty : matches Empty []
| MChr c : matches (Chr c) [c]
| MDigit c : isDigit c = true -> matches Digit [c]
| MSeq a b u v : matches a u -> matches b v -> matches (Seq a b) (u ++ v)
| MAltL a b u : matches a u -> matches (Alt a b) u
| MAltR a b u : matches b u -> matches (Alt a b) u
| MStar0 a : matches (Star a) []
| MStarS a u v :
    matches a u -> matches (Star a) v -> matches (Star a) (u ++ v).

End RegExp.

(* ------------------------------------------------------------------ *)
(** ** Numbers *)

(** A JavaScript Number: an IEEE-754 binary64 value. *)
Definition number := spec_float.

Module JSNumber.

Definition prec : Z := 53.
Definition emax : Z := 1024.

Definition NaN : number := S754_nan.
Definition Infinity : number := S754_infinity false.

Definition add (x y : number) : number := SFadd prec emax x y.
Definition sub (x y : number) : number := SFsub prec emax x y.
Definition mul (x y : number) : number := SFmul prec emax x y.
Definition div (x y : number) : number := SFdiv prec emax x y.
Definition neg (x : number) : number := SFopp x.

(** The global [isNaN] and [isFinite] at a Number argument. *)
Definition isNaN (x : number) : bool :=
  match x with S754_nan => true | _ => false end.

Definition isFinite (x : number) : bool :=
  match x with
  | S754_nan | S754_infinity _ => false
  | _ => true
  end.

(** The Number nearest to [m * 10^e] (ties to even), with the sign
    [sgn]; [m] is the absolute value.  This is the value of a decimal
    literal, in the source text and in [StringToNumber]. *)
Definition ofDecimal (sgn : bool) (m e : Z) : number :=
  match m with
  | Zpos p =>
      if 0 <=? e then binary_round prec emax sgn (Z.to_pos (m * 10 ^ e)) 0
      else div (S754_finite sgn p 0)
               (S754_finite false (Z.to_pos (10 ^ (- e))) 0)
  | _ => S754_zero sgn
  end.

(** The Number nearest to the integer [z]. *)
Definition ofZ (z : Z) : number := binary_normalize prec emax z 0 false.

(** [Math.round]: the nearest integer, a tie going towards +Infinity;
    the result is -0 for -0 and for arguments in [-0.5, 0). *)
Definition Math_round (x : number) : number :=
  match x with
  | S754_finite s m e =>
      if 0 <=? e then x
      else
        let d := 2 ^ (- e) in
        let sm := if s then Z.neg m else Z.pos m in
        let n := (2 * sm + d) / (2 * d) in
        if n =? 0 then S754_zero s else ofZ n
  | _ => x
  end.

(** *** Reading numbers: [StringToNumber] and [parseFloat] *)

Definition isDigit : N -> bool := JSString.isDigit.

(** The longest prefix of decimal digits, and what follows it. *)
Fixpoint spanDigits (s : jsstring) : jsstring * jsstring :=
  match s with
  | c :: t =>
      if isDigit c then let '(d, r) := spanDigits t in (c :: d, r)
      else ([], s)
  | [] => ([], [])
  end.

(** The value of a sequence of digits in base [b]; a digit is given by
    [dv]. *)
Definition digitsValue (b : Z) (dv : N -> Z) (ds : jsstring) : Z :=
  fold_left (fun acc c => b * acc + dv c) ds 0.

Definition decDigit (c : N) : Z := Z.of_N c - 48.

Definition decValue (ds : jsstring) : Z := digitsValue 10 decDigit ds.

(** A scanned StrUnsignedDecimalLiteral. *)
Inductive scanned : Type :=
| SInfinity : scanned
| SDecimal : Z -> Z -> scanned.   (* mantissa, power of ten *)

(** ExponentPart, when one is there: [e] or [E], an optional sign and
    at least one digit. *)
Definition scanExponent (s : jsstring) : Z * jsstring :=
  match s with
  | c :: t =>
      if ((c =? 101) || (c =? 69))%N then
        let '(sg, t') :=
          match t with
          | x :: u =>
              if (x =? 43)%N then (false, u)
              else if (x =? 45)%N then (true, u)
              else (false, t)
          | [] => (false, t)
          end in
        match spanDigits t' with
        | ([], _) => (0, s)
        | (ds, r) => ((if sg then - decValue ds else decValue ds), r)
        end
      else (0, s)
  | [] => (0, s)
  end.

(** The longest prefix that is a StrUnsignedDecimalLiteral, and the
    rest of the text: [Infinity], or digits, a point and digits (digits
    on one side of the point at least), or digits alone, and then an
    ExponentPart when there is one. *)
Definition scanUnsigned (s : jsstring) : option (scanned * jsstring) :=
  match JSString.startsWith (lit "Infinity") s with
  | Some r => Some (SInfinity, r)
  | None =>
      let '(ip, r1) := spanDigits s in
      let '(fp, r3) :=
        match r1 with
        | c :: r2 => if (c =? 46)%N then spanDigits r2 else ([], r1)
        | [] => ([], r1)
        end in
      match ip, fp with
      | [], [] => None
      | _, _ =>
          let '(ex, r4) := scanExponent r3 in
          Some (SDecimal (decValue (ip ++ fp))
                         (ex - Z.of_nat (List.length fp)), r4)
      end
  end.

(** The longest prefix that is a StrDecimalLiteral: an optional sign
    and a StrUnsignedDecimalLiteral. *)
Definition scanDecimal (s : jsstring) : option (number * jsstring) :=
  let '(sg, t) :=
    match s with
    | c :: u =>
        if (c =? 43)%N then (false, u)
        else if (c =? 45)%N then (true, u)
        else (false, s)
    | [] => (false, s)
    end in
  match scanUnsigned t with
  | Some (SInfinity, r) => Some (S754_infinity sg, r)
  | Some (SDecimal m e, r) => Some (ofDecimal sg m e, r)
  | None => None
  end.

Definition hexDigit (c : N) : option Z :=
  if isDigit c then Some (Z.of_N c - 48)
  else if ((97 <=? c) && (c <=? 102))%N then Some (Z.of_N c - 87)
  else if ((65 <=? c) && (c <=? 70))%N then Some (Z.of_N c - 55)
  else None.

(** The digits of [s] in base [b], when [s] is one digit or more and
    all are below [b]. *)
Definition radixValue (b : Z) (s : jsstring) : option Z :=
  match s with
  | [] => None
  | _ =>
      if forallb (fun c => match hexDigit c with
                           | Some v => v <? b
                           | None => false
                           end) s
      then Some (digitsValue b (fun c => match hexDigit c with
                                         | Some v => v
                                         | None => 0
                                         end) s)
      else None
  end.

(** NonDecimalIntegerLiteral: [0b], [0o] or [0x] and digits. *)
Definition scanNonDecimal (s : jsstring) : option Z :=
  match s with
  | z :: c :: t =>
      if negb (z =? 48)%N then None
      else if ((c =? 98) || (c =? 66))%N then radixValue 2 t
      else if ((c =? 111) || (c =? 79))%N then radixValue 8 t
      else if ((c =? 120) || (c =? 88))%N then radixValue 16 t
      else None
  | _ => None
  end.

(** [Number(text)], that is StringToNumber: white space around the
    literal is dropped, the empty text is +0, and text that is not a
    StrNumericLiteral as a whole is NaN. *)
Definition Number (text : jsstring) : number :=
  match JSString.trim text with
  | [] => S754_zero false
  | t =>
      match scanNonDecimal t with
      | Some z => ofZ z
      | None =>
          match scanDecimal t with
          | Some (x, []) => x
          | _ => NaN
          end
      end
  end.

(** [parseFloat(text)]: leading white space is dropped and the longest
    prefix that is a StrDecimalLiteral is read; NaN when there is
    none. *)
Definition parseFloat (text : jsstring) : number :=
  match scanDecimal (JSString.trimStart text) with
  | Some (x, _) => x
  | None => NaN
  end.

(** *** Writing numbers: [Number::toString] in radix 10 *)

Definition number_eqb (x y : number) : bool :=
  match x, y with
  | S754_zero a, S754_zero b => Bool.eqb a b
  | S754_infinity a, S754_infinity b => Bool.eqb a b
  | S754_nan, S754_nan => true
  | S754_finite a m e, S754_finite b m' e' =>
      Bool.eqb a b && (m =? m')%positive && (e =? e')
  | _, _ => false
  end.

(** The [k] low decimal digits of [s], the most significant first. *)
Fixpoint digitsOf (k : nat) (s : Z) : jsstring :=
  match k with
  | O => []
  | S k' => digitsOf k' (s / 10) ++ [Z.to_N (48 + s mod 10)]
  end.

Fixpoint countDigits (fuel : nat) (q : Z) : nat :=
  match fuel with
  | O => 1%nat
  | S f => if q <? 10 then 1%nat else S (countDigits f (q / 10))
  end.

(** How many decimal digits the integer [q >= 0] has. *)
Definition numDigits (q : Z) : nat := countDigits (Z.to_nat (Z.log2 q)) q.

(** The decimal representation of the integer [q >= 0]. *)
Definition decimalOf (q : Z) : jsstring := digitsOf (numDigits q) q.

Fixpoint leadingZeros (fuel : nat) (num den : Z) : Z :=
  match fuel with
  | O => 1
  | S f =>
      if den <=? num * 10 then 1 else 1 + leadingZeros f (num * 10) den
  end.

(** The [n] with [10^(n-1) <= num/den < 10^n], for [num/den > 0]. *)
Definition decimalExponent (num den : Z) : Z :=
  if den <=? num then Z.of_nat (numDigits (num / den))
  else 1 - leadingZeros (Z.to_nat (Z.log2 den)) num den.

(** The integers next to [num/den * 10^(k - n0)] on both sides, and
    where the value lies between them. *)
Definition neighbours (num den n0 : Z) (k : nat) : Z * comparison :=
  let p := Z.of_nat k - n0 in
  let num' := if 0 <=? p then num * 10 ^ p else num in
  let den' := if 0 <=? p then den else den * 10 ^ (- p) in
  (num' / den', 2 * (num' mod den') ?= den').

(** The [s] of [k] digits with [s * 10^(n0-k)] reading back as [x],
    the nearest to [x] when both neighbours do (the even one on a
    tie). *)
Definition candidate (x : number) (num den n0 : Z) (k : nat) : option Z :=
  let '(lo, c) := neighbours num den n0 k in
  let hi := lo + 1 in
  let p := n0 - Z.of_nat k in
  let okLo := number_eqb (ofDecimal false lo p) x in
  let okHi := number_eqb (ofDecimal false hi p) x in
  match okLo, okHi with
  | true, true =>
      match c with
      | Lt => Some lo
      | Gt => Some hi
      | Eq => Some (if Z.even lo then lo else hi)
      end
  | true, false => Some lo
  | false, true => Some hi
  | false, false => None
  end.

(** The least [k] from [k] on that has a candidate; binary64 needs at
    most 17 digits. *)
Fixpoint shortest (fuel : nat) (x : number) (num den n0 : Z) (k : nat)
  : Z * nat :=
  match fuel with
  | O => (fst (neighbours num den n0 k), k)
  | S f =>
      match candidate x num den n0 k with
      | Some s => (s, k)
      | None => shortest f x num den n0 (S k)
      end
  end.

(** The [n], [k] and [s] of Number::toString for a finite [x > 0] of
    mantissa [m] and exponent [e]. *)
Definition shortestDecimal (m : positive) (e : Z) : Z * nat * Z :=
  let num := if 0 <=? e then Z.pos m * 2 ^ e else Z.pos m in
  let den := if 0 <=? e then 1 else 2 ^ (- e) in
  let n0 := decimalExponent num den in
  let '(s, k) := shortest 17 (S754_finite false m e) num den n0 1 in
  if s =? 10 ^ Z.of_nat k then (n0 + 1, k, 10 ^ (Z.of_nat k - 1))
  else (n0, k, s).

Definition zeros (n : Z) : jsstring := repeat 48%N (Z.to_nat n).

(** Steps 6 to 12 of Number::toString. *)
Definition formatDecimal (n : Z) (k : nat) (s : Z) : jsstring :=
  let ds := digitsOf k s in
  let kz := Z.of_nat k in
  if (-5 <=? n) && (n <=? 21) then
    if kz <=? n then ds ++ zeros (n - kz)
    else if 0 <? n then
      firstn (Z.to_nat n) ds ++ 46%N :: skipn (Z.to_nat n) ds
    else lit "0." ++ zeros (- n) ++ ds
  else
    let es := (if n <? 0 then 45%N else 43%N) :: decimalOf (Z.abs (n - 1)) in
    match ds with
    | [] => []
    | [d] => d :: 101%N :: es
    | d :: rest => d :: 46%N :: rest ++ 101%N :: es
    end.

(** [Number::toString(x, 10)], which is what [`${x}`] and
    [x.toString()] give. *)
Definition toString (x : number) : jsstring :=
  match x with
  | S754_nan => lit "NaN"
  | S754_zero _ => lit "0"
  | S754_infinity sg => if sg then lit "-Infinity" else lit "Infinity"
  | S754_finite sg m e =>
      let '(n, k, s) := shortestDecimal m e in
      (if sg then [45%N] else []) ++ formatDecimal n k s
  end.

(** [x] is written without an exponent: it is a zero, or finite with
    its decimal exponent [n] from -5 to 21. *)
Definition rendersPlain (x : number) : bool :=
  match x with
  | S754_zero _ => true
  | S754_finite _ m e =>
      let '(n, _, _) := shortestDecimal m e in (-5 <=? n) && (n <=? 21)
  | _ => false
  end.

End JSNumber.

(* ------------------------------------------------------------------ *)
(** ** Types *)

(** ['x' | 'y'] *)
Inductive Axis : Type := axis_x | axis_y.

Record State : Type := mkState {
  axis : Axis;
  previousPosition : jsstring;
  offsetStart : jsstring;
  offsetEnd : jsstring;
  result : jsstring;
  finished : bool
}.

Inductive Action : Type :=
| SET_AXIS (payload : Axis)
| SET_PREVIOUS_POSITION (payload : jsstring)
| SET_OFFSET_START (payload : jsstring)
| SET_OFFSET_END (payload : jsstring)
| SET_RESULT (payload : jsstring)
| SET_FINISHED (payload : bool)
| INCREMENT_PREVIOUS_POSITION (payload : number)
| INCREMENT_OFFSET_START (payload : number)
| INCREMENT_OFFSET_END (payload : number)
| RESET.

(* ------------------------------------------------------------------ *)
(** ** Constants *)

(** [const INCREMENT = 0.1] *)
Definition INCREMENT : number := JSNumber.ofDecimal false 1 (-1).

(* ------------------------------------------------------------------ *)
(** ** Utils *)

Module NumberHandler.
Import RegExp.

(** The body of [/^-?\d*\.?\d*$/]. *)
Definition numericPattern : re :=
  Seq (Opt (Chr 45)) (Seq (Star Digit) (Seq (Opt (Chr 46)) (Star Digit))).

Definition extractFirstWord (text : jsstring) : jsstring :=
  let word := JSString.index0 (JSString.split 32 (JSString.trim text)) in
  if str_length word =? 0 then []
  else if test numericPattern word then word else [].

(** [1e8] *)
Definition c1e8 : number := JSNumber.ofDecimal false 1 8.

Definition precise (num : number) : number :=
  JSNumber.div (JSNumber.Math_round (JSNumber.mul num c1e8)) c1e8.

Definition isValidNumber (num : number) : bool :=
  negb (JSNumber.isNaN num) && JSNumber.isFinite num.

Definition incrementIfValid (text : jsstring) (delta : number) : jsstring :=
  if str_length text =? 0 then JSNumber.toString delta
  else
    let num := JSNumber.add (JSNumber.parseFloat text) delta in
    if isValidNumber num then JSNumber.toString (precise num)
    else lit "0".

End NumberHandler.

(* ------------------------------------------------------------------ *)
(** ** State and reducer *)

Definition initialState : State :=
  {| axis := axis_x;
     previousPosition := [];
     offsetStart := [];
     offsetEnd := [];
     result := [];
     finished := false |}.

Definition reducer (state : State) (action : Action) : State :=
  match action with
  | SET_AXIS payload =>
      {| axis := payload;
         previousPosition := previousPosition state;
         offsetStart := offsetStart state;
         offsetEnd := offsetEnd state;
         result := result state;
         finished := finished state |}
  | SET_PREVIOUS_POSITION payload =>
      {| axis := axis state;
         previousPosition := payload;
         offsetStart := offsetStart state;
         offsetEnd := offsetEnd state;
         result := result state;
         finished := finished state |}
  | SET_OFFSET_START payload =>
      {| axis := axis state;
         previousPosition := previousPosition state;
         offsetStart := payload;
         offsetEnd := offsetEnd state;
         result := result state;
         finished := finished state |}
  | SET_OFFSET_END payload =>
      {| axis := axis state;
         previousPosition := previousPosition state;
         offsetStart := offsetStart state;
         offsetEnd := payload;
         result := result state;
         finished := finished state |}
  | SET_RESULT payload =>
      {| axis := axis state;
         previousPosition := previousPosition state;
         offsetStart := offsetStart state;
         offsetEnd := offsetEnd state;
         result := payload;
         finished := finished state |}
  | SET_FINISHED payload =>
      {| axis := axis state;
         previousPosition := previousPosition state;
         offsetStart := offsetStart state;
         offsetEnd := offsetEnd state;
         result := result state;
         finished := payload |}
  | INCREMENT_PREVIOUS_POSITION payload =>
      {| axis := axis state;
         previousPosition :=
           NumberHandler.incrementIfValid (previousPosition state) payload;
         offsetStart := offsetStart state;
         offsetEnd := offsetEnd state;
         result := result state;
         finished := finished state |}
  | INCREMENT_OFFSET_START payload =>
      {| axis := axis state;
         previousPosition := previousPosition state;
         offsetStart :=
           NumberHandler.incrementIfValid (offsetStart state) payload;
         offsetEnd := offsetEnd state;
         result := result state;
         finished := finished state |}
  | INCREMENT_OFFSET_END payload =>
      {| axis := axis state;
         previousPosition := previousPosition state;
         offsetStart := offsetStart state;
         offsetEnd :=
           NumberHandler.incrementIfValid (offsetEnd state) payload;
         result := result state;
         finished := finished state |}
  | RESET => initialState
  end.

(* ------------------------------------------------------------------ *)
(** ** App: the handlers *)

(** The [shift] of [calculateCenter], from the fields it closes over. *)
Definition shift (state : State) : number :=
  let o1 := JSNumber.Number (offsetStart state) in
  let o2 := JSNumber.Number (offsetEnd state) in
  JSNumber.sub (JSNumber.div (JSNumber.add o1 o2)
                             (JSNumber.ofDecimal false 2 0)) o1.

(** The rounded new position, before it is turned into text. *)
Definition newPosition (state : State) : number :=
  let prev := JSNumber.Number (previousPosition state) in
  NumberHandler.precise (JSNumber.sub prev (shift state)).

Definition newPos (state : State) : jsstring :=
  JSNumber.toString (newPosition state).

(** [calculateCenter]: the two dispatches, in order, on the state of the
    render the handler belongs to.  (The clipboard write leaves the
    state alone.) *)
Definition calculateCenter (state : State) : State :=
  reducer (reducer state (SET_RESULT (newPos state))) (SET_FINISHED true).

(** What the user interface can do to the state. *)
Inductive Field : Type := PreviousPosition | OffsetStart | OffsetEnd.

Inductive Command : Type :=
| SetAxis (a : Axis)
| SetField (f : Field) (rawText : jsstring)
| Increment (f : Field) (delta : number)
| Calculate
| Dismiss
| Reset.

Definition setFieldAction (f : Field) (v : jsstring) : Action :=
  match f with
  | PreviousPosition => SET_PREVIOUS_POSITION v
  | OffsetStart => SET_OFFSET_START v
  | OffsetEnd => SET_OFFSET_END v
  end.

Definition incrementAction (f : Field) (d : number) : Action :=
  match f with
  | PreviousPosition => INCREMENT_PREVIOUS_POSITION d
  | OffsetStart => INCREMENT_OFFSET_START d
  | OffsetEnd => INCREMENT_OFFSET_END d
  end.

(** A row's [onChange] sanitizes the typed text before it dispatches;
    [onInc] dispatches the increment; the overlay's buttons dispatch
    [SET_FINISHED false] and [RESET]. *)
Definition run (state : State) (c : Command) : State :=
  match c with
  | SetAxis a => reducer state (SET_AXIS a)
  | SetField f raw =>
      reducer state (setFieldAction f (NumberHandler.extractFirstWord raw))
  | Increment f d => reducer state (incrementAction f d)
  | Calculate => calculateCenter state
  | Dismiss => reducer state (SET_FINISHED false)
  | Reset => reducer state RESET
  end.

Definition field (f : Field) (state : State) : jsstring :=
  match f with
  | PreviousPosition => previousPosition state
  | OffsetStart => offsetStart state
  | OffsetEnd => offsetEnd state
  end.

(** A session as typed in: the three fields, nothing computed yet. *)
Definition typed (a : Axis) (prev o1 o2 : string) : State :=
  mkState a (lit prev) (lit o1) (lit o2) [] false.

(** What a command writes to. *)
Inductive Slot : Type := AxisSlot | FieldSlot (f : Field).

Definition target (c : Command) : option Slot :=
  match c with
  | SetAxis _ => Some AxisSlot
  | SetField f _ | Increment f _ => Some (FieldSlot f)
  | Calculate | Dismiss | Reset => None
  end.

(** [s'] is [s] but for what is stored in the slot [t]. *)
Definition agreeExcept (t : Slot) (s s' : State) : Prop :=
  result s' = result s /\ finished s' = finished s /\
  (t <> AxisSlot -> axis s' = axis s) /\
  (forall g, t <> FieldSlot g -> field g s' = field g s).

(** The arrows of a row pass [INCREMENT] and [-INCREMENT]. *)
Definition uiCommand (c : Command) : Prop :=
  match c with
  | Increment _ d => d = INCREMENT \/ d = JSNumber.neg INCREMENT
  | _ => True
  end.

(** The states the user interface can bring about. *)
Inductive reachable : State -> Prop :=
| reach_init : reachable initialState
| reach_step s c : reachable s -> uiCommand c -> reachable (run s c).

Definition runAll (state : State) (cs : list Command) : State :=
  fold_left run cs state.

(* ------------------------------------------------------------------ *)
(** ** The specification's vocabulary *)

Module Spec.

(** "Optional leading minus sign, digits, optional single decimal
    point, digits", every part possibly empty. *)
Definition SignedDecimal (w : jsstring) : Prop :=
  exists sg ip pt fp,
    w = sg ++ ip ++ pt ++ fp /\
    (sg = [] \/ sg = [45%N]) /\ forallb JSString.isDigit ip = true /\
    (pt = [] \/ pt = [46%N]) /\ forallb JSString.isDigit fp = true.

Definition dropOptional (c : N) (s : jsstring) : jsstring :=
  match s with
  | d :: t => if (d =? c)%N then t else s
  | [] => []
  end.

(** The same shape, read off from left to right. *)
Definition isSignedDecimal (w : jsstring) : bool :=
  match JSString.dropWhile JSString.isDigit
          (dropOptional 46
             (JSString.dropWhile JSString.isDigit (dropOptional 45 w)))
  with
  | [] => true
  | _ => false
  end.

(** The first token of the trimmed text when it is split at white
    space of any kind. *)
Definition firstToken (text : jsstring) : jsstring :=
  JSString.takeWhile (fun c => negb (JSString.isWhiteSpace c))
                     (JSString.trim text).

(** The numeric-token extractor as the specification words it. *)
Definition extractor (text : jsstring) : jsstring :=
  let token := firstToken text in
  if isSignedDecimal token then token else [].

(** The first token of the trimmed text when it is split at the space
    character U+0020 alone. *)
Definition firstWord (text : jsstring) : jsstring :=
  JSString.takeWhile (fun c => negb (c =? 32)%N) (JSString.trim text).

(** The code units a signed decimal is made of: no white space, no [+],
    no letter of a radix prefix or of an exponent. *)
Definition plainChar (c : N) : Prop :=
  (c = 45 \/ c = 46 \/ 48 <= c <= 57)%N.

(** A field's text is empty or has the signed decimal shape. *)
Definition fieldOk (w : jsstring) : bool :=
  (str_length w =? 0) || RegExp.test NumberHandler.numericPattern w.

(** The Number whose text an increment stores: the delta for the empty
    text, the rounded sum when the sum is a finite number, zero
    otherwise. *)
Definition incrementValue (text : jsstring) (delta : number) : number :=
  match text with
  | [] => delta
  | _ =>
      let sum := JSNumber.add (JSNumber.parseFloat text) delta in
      if JSNumber.isNaN sum || negb (JSNumber.isFinite sum)
      then S754_zero false
      else NumberHandler.precise sum
  end.

(** The invariant the data model asks of the three text fields. *)
Definition fieldsOk (state : State) : bool :=
  fieldOk (previousPosition state) && fieldOk (offsetStart state)
  && fieldOk (offsetEnd state).

End Spec.

(* ------------------------------------------------------------------ *)
(** ** App: what is rendered, and what the actions write to *)

(** [finished && state.result.length > 0]: the result row of the table. *)
Definition resultRowShown (state : State) : bool :=
  finished state && (0 <? str_length (result state)).

(** [finished]: the result overlay. *)
Definition overlayShown (state : State) : bool := finished state.

(** The part of the state a case of the reducer assigns. *)
Inductive Place : Type :=
| PAxis | PField (f : Field) | PResult | PFinished.

Definition place (a : Action) : option Place :=
  match a with
  | SET_AXIS _ => Some PAxis
  | SET_PREVIOUS_POSITION _ | INCREMENT_PREVIOUS_POSITION _ =>
      Some (PField PreviousPosition)
  | SET_OFFSET_START _ | INCREMENT_OFFSET_START _ => Some (PField OffsetStart)
  | SET_OFFSET_END _ | INCREMENT_OFFSET_END _ => Some (PField OffsetEnd)
  | SET_RESULT _ => Some PResult
  | SET_FINISHED _ => Some PFinished
  | RESET => None
  end.

(** The setter cases, which store their payload as it is. *)
Definition isSetter (a : Action) : bool :=
  match a with
  | SET_AXIS _ | SET_PREVIOUS_POSITION _ | SET_OFFSET_START _
  | SET_OFFSET_END _ | SET_RESULT _ | SET_FINISHED _ => true
  | _ => false
  end.

(** The texts without a digit that [extractFirstWord] lets through. *)
Definition bareTexts : list jsstring := [lit "-"; lit "."; lit "-."].

(** [t] is a complete decimal literal: [Number] and [parseFloat] both
    read all of it, as the number [v]. *)
Definition readsAs (t : jsstring) (v : number) : Prop :=
  JSString.trim t = t /\ t <> [] /\
  JSNumber.scanNonDecimal t = None /\
  JSNumber.scanDecimal t = Some (v, []).

(* ------------------------------------------------------------------ *)
(** ** Exact values *)

Module Exact.

(** The mantissa of a finite Number with its sign. *)
Definition signedMantissa (s : bool) (m : positive) : Z :=
  if s then Z.neg m else Z.pos m.

(** The Number [r] is the integer [n], exactly. *)
Definition representsZ (r : number) (n : Z) : Prop :=
  match r with
  | S754_zero _ => n = 0
  | S754_finite s m e =>
      if 0 <=? e then n = signedMantissa s m * 2 ^ e
      else signedMantissa s m = n * 2 ^ (- e)
  | _ => False
  end.

(** [n] is the integer nearest to [m * 2^e] taken with the sign [s], a
    value halfway between two integers going to the larger one. *)
Definition nearestInteger (s : bool) (m : positive) (e : Z) (n : Z) : Prop :=
  if 0 <=? e then n = signedMantissa s m * 2 ^ e
  else 2 ^ (- e) * (2 * n - 1) <= 2 * signedMantissa s m
       < 2 ^ (- e) * (2 * n + 1).

End Exact.

Module Magnitude.

(** [m * 2^e] as a fraction of positive integers. *)
Definition fraction (m : positive) (e : Z) : Z * Z :=
  if 0 <=? e then (Z.pos m * 2 ^ e, 1) else (Z.pos m, 2 ^ (- e)).

(** [10^p <= num / den], for any integer [p]. *)
Definition atLeastPow10 (num den p : Z) : bool :=
  if 0 <=? p then 10 ^ p * den <=? num else den <=? num * 10 ^ (- p).

(** [num / den < 10^p], for any integer [p]. *)
Definition belowPow10 (num den p : Z) : bool :=
  if 0 <=? p then num <? 10 ^ p * den else num * 10 ^ (- p) <? den.

(** The Number of the literal [1e-6], a little below 10^-6. *)
Definition micro : number := JSNumber.ofDecimal false 1 (-6).

(** [x] is a zero, or its magnitude is at least 10^-6 and below 10^21,
    or its magnitude is the Number [1e-6]. *)
Definition plainMagnitude (x : number) : bool :=
  match x with
  | S754_zero _ => true
  | S754_finite _ m e =>
      let '(num, den) := fraction m e in
      atLeastPow10 num den (-6) && belowPow10 num den 21
      || JSNumber.number_eqb (S754_finite false m e) micro
  | _ => false
  end.

End Magnitude.

(* ------------------------------------------------------------------ *)
(** * Properties *)

Ltac inv H := inversion H; subst; clear H.

(** Case analysis on the comparisons of code units in the goal. *)
Ltac decide_codes :=
  repeat match goal with
  | |- context [(?a <=? ?b)%N] => destruct (N.leb_spec a b); try lia
  | |- context [(?a =? ?b)%N] => destruct (N.eqb_spec a b); try lia
  end; try reflexivity.

(** ** [RegExp.test] decides the meaning of a pattern *)

Section RegExpFacts.
Import RegExp.

Lemma matches_nil_nullable r s : matches r s -> s = [] -> nullable r = true.
Proof.
  induction 1; intros E; simpl; try discriminate; auto.
  - apply app_eq_nil in E as [-> ->]. now rewrite IHmatches1, IHmatches2.
  - now rewrite IHmatches.
  - rewrite IHmatches by assumption. apply orb_true_r.
Qed.

Lemma nullable_matches_nil r : nullable r = true -> matches r [].
Proof.
  induction r; simpl; intros E; try discriminate.
  - constructor.
  - apply andb_true_iff in E as [E1 E2].
    change (@nil N) with (@nil N ++ []). constructor; auto.
  - apply orb_true_iff in E as [E|E]; [apply MAltL | apply MAltR]; auto.
  - constructor.
Qed.

Lemma matches_star_cons a c s :
  matches (Star a) (c :: s) ->
  exists u v, s = u ++ v /\ matches a (c :: u) /\ matches (Star a) v.
Proof.
  intros H. remember (Star a) as r eqn:Er. remember (c :: s) as w eqn:Ew.
  induction H; try discriminate.
  injection Er as ->.
  destruct u as [|c' u'].
  - simpl in Ew. auto.
  - simpl in Ew. injection Ew as E1 E2. subst c' s. exists u', v. auto.
Qed.

Lemma deriv_sound c r : forall s, matches (deriv c r) s -> matches r (c :: s).
Proof.
  induction r; simpl; intros s H.
  - inv H.
  - inv H.
  - destruct (N.eqb_spec c n) as [->|]; inv H. constructor.
  - destruct (isDigit c) eqn:D; inv H. now constructor.
  - destruct (nullable r1) eqn:Nu.
    + inv H.
      * match goal with M : matches (Seq _ _) _ |- _ => inv M end.
        change (matches (Seq r1 r2) ((c :: u) ++ v)). constructor; auto.
      * change (matches (Seq r1 r2) ([] ++ c :: s)). constructor; auto.
        now apply nullable_matches_nil.
    + inv H. change (matches (Seq r1 r2) ((c :: u) ++ v)). constructor; auto.
  - inv H; [apply MAltL | apply MAltR]; auto.
  - inv H. change (matches (Star r) ((c :: u) ++ v)). constructor; auto.
Qed.

Lemma matches_seq_cons a b c s :
  matches (Seq a b) (c :: s) ->
  (exists u v, s = u ++ v /\ matches a (c :: u) /\ matches b v) \/
  (matches a [] /\ matches b (c :: s)).
Proof.
  intros H. inversion H as [| | |a' b' u v Hu Hv E1 E2| | | |]; subst.
  destruct u as [|c' u']; simpl in *.
  - right. subst v. auto.
  - left. injection E2 as E3 E4. subst c' s. exists u', v. auto.
Qed.

Lemma deriv_complete c r :
  forall s, matches r (c :: s) -> matches (deriv c r) s.
Proof.
  induction r; simpl; intros s H.
  - inv H.
  - inv H.
  - inv H. rewrite N.eqb_refl. constructor.
  - inversion H as [| |c' D| | | | |]; subst. rewrite D. constructor.
  - apply matches_seq_cons in H as [(u & v & -> & Hu & Hv) | [Hu Hv]].
    + destruct (nullable r1); [apply MAltL|]; constructor; auto.
    + rewrite (matches_nil_nullable _ _ Hu eq_refl). apply MAltR. auto.
  - inv H; [apply MAltL | apply MAltR]; auto.
  - apply matches_star_cons in H as (u & v & -> & Hu & Hv).
    constructor; auto.
Qed.

Lemma test_matches r : forall s, test r s = true <-> matches r s.
Proof.
  intros s. revert r. induction s as [|c s IH]; intros r; simpl.
  - split; [apply nullable_matches_nil|].
    intros H. now apply (matches_nil_nullable r []).
  - rewrite IH. split; [apply deriv_sound | apply deriv_complete].
Qed.

End RegExpFacts.

(** ** The pattern of [extractFirstWord] is the signed decimal shape *)

Section PatternFacts.
Import RegExp.

Lemma star_digit_iff u :
  matches (Star Digit) u <-> forallb JSString.isDigit u = true.
Proof.
  split.
  - intros H. remember (Star Digit) as r eqn:Er.
    induction H; try discriminate; auto.
    injection Er as ->. rewrite forallb_app, IHmatches2 by reflexivity.
    inversion H as [| |c D| | | | |]; subst. simpl.
    unfold isDigit in D. now rewrite D.
  - induction u as [|c u IH]; simpl; intros E.
    + constructor.
    + apply andb_true_iff in E as [D E].
      change (matches (Star Digit) ([c] ++ u)). constructor; auto.
      now constructor.
Qed.

Lemma opt_chr_iff c u : matches (Opt (Chr c)) u <-> u = [] \/ u = [c].
Proof.
  unfold Opt. split.
  - intros H. inversion H as [| | | |a b w M|a b w M| |]; subst;
      inversion M; subst; auto.
  - intros [-> | ->]; [apply MAltR | apply MAltL]; constructor.
Qed.

Lemma numericPattern_shape w :
  matches NumberHandler.numericPattern w <-> Spec.SignedDecimal w.
Proof.
  unfold NumberHandler.numericPattern, Spec.SignedDecimal. split.
  - intros H.
    inversion H as [| | |a1 b1 sg r1 Hsg H1 | | | |]; subst.
    inversion H1 as [| | |a2 b2 ip r2 Hip H2 | | | |]; subst.
    inversion H2 as [| | |a3 b3 pt fp Hpt Hfp | | | |]; subst.
    exists sg, ip, pt, fp. repeat split.
    + now apply opt_chr_iff.
    + now apply star_digit_iff.
    + now apply opt_chr_iff.
    + now apply star_digit_iff.
  - intros (sg & ip & pt & fp & -> & Hsg & Hip & Hpt & Hfp).
    apply MSeq; [now apply opt_chr_iff|].
    apply MSeq; [now apply star_digit_iff|].
    apply MSeq; [now apply opt_chr_iff | now apply star_digit_iff].
Qed.

Lemma take_drop_while p s :
  s = JSString.takeWhile p s ++ JSString.dropWhile p s.
Proof.
  induction s as [|c s IH]; simpl; auto.
  destruct (p c); simpl; congruence.
Qed.

Lemma takeWhile_all p s : forallb p (JSString.takeWhile p s) = true.
Proof.
  induction s as [|c s IH]; simpl; auto.
  destruct (p c) eqn:E; simpl; auto. now rewrite E.
Qed.

Lemma dropWhile_app_all p u v :
  forallb p u = true ->
  JSString.dropWhile p (u ++ v) = JSString.dropWhile p v.
Proof.
  induction u as [|c u IH]; simpl; auto.
  intros E. apply andb_true_iff in E as [-> E]. auto.
Qed.

Lemma dropWhile_all p u :
  forallb p u = true -> JSString.dropWhile p u = [].
Proof.
  induction u as [|c u IH]; simpl; auto.
  intros E. apply andb_true_iff in E as [-> E]. auto.
Qed.

Lemma dropOptional_split c s :
  exists o, (o = [] \/ o = [c]) /\ s = o ++ Spec.dropOptional c s.
Proof.
  destruct s as [|d t]; simpl.
  - exists []. auto.
  - destruct (N.eqb_spec d c) as [->|].
    + exists [c]. auto.
    + exists []. auto.
Qed.

Lemma isSignedDecimal_iff w :
  Spec.isSignedDecimal w = true <-> Spec.SignedDecimal w.
Proof.
  unfold Spec.isSignedDecimal, Spec.SignedDecimal. split.
  - intros H.
    destruct (dropOptional_split 45 w) as (sg & Hsg & E1).
    set (w1 := Spec.dropOptional 45 w) in *.
    pose proof (take_drop_while JSString.isDigit w1) as E2.
    set (w2 := JSString.dropWhile JSString.isDigit w1) in *.
    destruct (dropOptional_split 46 w2) as (pt & Hpt & E3).
    set (w3 := Spec.dropOptional 46 w2) in *.
    pose proof (take_drop_while JSString.isDigit w3) as E4.
    destruct (JSString.dropWhile JSString.isDigit w3); [|discriminate].
    exists sg, (JSString.takeWhile JSString.isDigit w1), pt,
      (JSString.takeWhile JSString.isDigit w3).
    repeat split; auto using takeWhile_all.
    rewrite app_nil_r in E4. congruence.
  - intros (sg & ip & pt & fp & -> & Hsg & Hip & Hpt & Hfp).
    assert (E1 : Spec.dropOptional 45 (sg ++ ip ++ pt ++ fp)
                 = ip ++ pt ++ fp).
    { destruct Hsg as [-> | ->]; simpl; auto.
      destruct ip as [|c ip]; simpl in *.
      - destruct Hpt as [-> | ->]; simpl; auto.
        destruct fp as [|c fp]; simpl in *; auto.
        destruct (N.eqb_spec c 45) as [->|]; auto. discriminate.
      - destruct (N.eqb_spec c 45) as [->|]; auto. discriminate. }
    rewrite E1, dropWhile_app_all by assumption.
    destruct Hpt as [-> | ->]; simpl.
    + now rewrite (dropWhile_all _ fp Hfp).
    + now rewrite (dropWhile_all _ fp Hfp).
Qed.

Lemma test_numericPattern w :
  test NumberHandler.numericPattern w = Spec.isSignedDecimal w.
Proof.
  apply eq_true_iff_eq.
  now rewrite test_matches, numericPattern_shape, isSignedDecimal_iff.
Qed.

End PatternFacts.

(** ** [extractFirstWord], and how numbers are written *)

Section TextFacts.
Import RegExp.

Lemma split_head sep s :
  JSString.index0 (JSString.split sep s)
  = JSString.takeWhile (fun c => negb (c =? sep)%N) s.
Proof.
  induction s as [|c t IH]; simpl; auto.
  destruct (c =? sep)%N; simpl; auto.
  destruct (JSString.split sep t) as [|w ws]; simpl in *; now rewrite <- IH.
Qed.

Lemma extractFirstWord_spec text :
  NumberHandler.extractFirstWord text
  = (let w := Spec.firstWord text in
     if Spec.isSignedDecimal w then w else []).
Proof.
  unfold NumberHandler.extractFirstWord, Spec.firstWord.
  rewrite split_head.
  destruct (JSString.takeWhile _ _) as [|c w]; [reflexivity|].
  cbv zeta. rewrite test_numericPattern.
  unfold str_length. simpl List.length.
  now destruct (Z.eqb_spec (Z.of_nat (S (List.length w))) 0); [lia|].
Qed.

Lemma takeWhile_ext p q s :
  (forall c, In c s -> p c = q c) ->
  JSString.takeWhile p s = JSString.takeWhile q s.
Proof.
  induction s as [|c t IH]; simpl; auto. intros H.
  rewrite (H c) by auto. destruct (q c); auto. f_equal. auto.
Qed.

Lemma extractFirstWord_extractor text :
  forallb (fun c => negb (JSString.isWhiteSpace c) || (c =? 32)%N)
          (JSString.trim text) = true ->
  NumberHandler.extractFirstWord text = Spec.extractor text.
Proof.
  intros H. rewrite extractFirstWord_spec.
  unfold Spec.extractor, Spec.firstWord, Spec.firstToken.
  rewrite forallb_forall in H.
  rewrite (takeWhile_ext (fun c => negb (c =? 32)%N)
                         (fun c => negb (JSString.isWhiteSpace c))); auto.
  intros c Hc. specialize (H c Hc). simpl in H.
  destruct (N.eqb_spec c 32) as [E|E].
  - now rewrite E.
  - now rewrite orb_false_r in H.
Qed.

Lemma digitsOf_digits k : forall s,
  forallb JSString.isDigit (JSNumber.digitsOf k s) = true.
Proof.
  induction k as [|k IH]; intros s; [reflexivity|].
  cbn [JSNumber.digitsOf]. rewrite forallb_app, IH.
  cbn [forallb andb]. rewrite andb_true_r.
  pose proof (Z.mod_pos_bound s 10 eq_refl).
  unfold JSString.isDigit. apply andb_true_iff. split; apply N.leb_le; lia.
Qed.

Lemma zeros_digits n : forallb JSString.isDigit (JSNumber.zeros n) = true.
Proof.
  unfold JSNumber.zeros. induction (Z.to_nat n); simpl; auto.
Qed.

Lemma forallb_firstn (p : N -> bool) n l :
  forallb p l = true -> forallb p (firstn n l) = true.
Proof.
  revert l. induction n; destruct l; simpl; auto.
  intros E. apply andb_true_iff in E as [-> E]. simpl. auto.
Qed.

Lemma forallb_skipn (p : N -> bool) n l :
  forallb p l = true -> forallb p (skipn n l) = true.
Proof.
  revert l. induction n; destruct l; simpl; auto.
  intros E. apply andb_true_iff in E as [_ E]. auto.
Qed.

Lemma formatDecimal_plain sg n k s :
  (-5 <=? n) && (n <=? 21) = true -> sg = [] \/ sg = [45%N] ->
  Spec.SignedDecimal (sg ++ JSNumber.formatDecimal n k s).
Proof.
  intros Hn Hsg. unfold JSNumber.formatDecimal. rewrite Hn.
  pose proof (digitsOf_digits k s) as D.
  destruct (Z.of_nat k <=? n).
  - exists sg, (JSNumber.digitsOf k s ++ JSNumber.zeros (n - Z.of_nat k)),
      [], [].
    rewrite !app_nil_r, forallb_app, D, zeros_digits. repeat split; auto.
  - destruct (0 <? n).
    + exists sg, (firstn (Z.to_nat n) (JSNumber.digitsOf k s)), [46%N],
        (skipn (Z.to_nat n) (JSNumber.digitsOf k s)).
      rewrite forallb_firstn, forallb_skipn by assumption.
      repeat split; auto.
    + exists sg, [48%N], [46%N],
        (JSNumber.zeros (- n) ++ JSNumber.digitsOf k s).
      rewrite forallb_app, D, zeros_digits. repeat split; auto.
Qed.

Lemma digitsOf_length k : forall s, List.length (JSNumber.digitsOf k s) = k.
Proof.
  induction k as [|k IH]; simpl; intros s; auto.
  rewrite length_app, IH. simpl. lia.
Qed.

Lemma formatDecimal_exponent n k s :
  (-5 <=? n) && (n <=? 21) = false -> (1 <= k)%nat ->
  In 101%N (JSNumber.formatDecimal n k s).
Proof.
  intros Hn Hk. unfold JSNumber.formatDecimal. rewrite Hn.
  pose proof (digitsOf_length k s) as L.
  destruct (JSNumber.digitsOf k s) as [|d [|d' r]]; simpl in L.
  - lia.
  - simpl. auto.
  - right. right. apply in_or_app. right. simpl. auto.
Qed.

Lemma SignedDecimal_chars w c :
  Spec.SignedDecimal w -> In c w ->
  c = 45%N \/ c = 46%N \/ JSString.isDigit c = true.
Proof.
  intros (sg & ip & pt & fp & -> & Hsg & Hip & Hpt & Hfp) H.
  rewrite forallb_forall in Hip, Hfp.
  repeat (apply in_app_or in H as [H|H]); auto.
  - destruct Hsg as [-> | ->]; simpl in H; intuition.
  - destruct Hpt as [-> | ->]; simpl in H; intuition.
Qed.

Lemma shortest_k x num den n0 : forall fuel k,
  (k <= snd (JSNumber.shortest fuel x num den n0 k))%nat.
Proof.
  induction fuel as [|f IH]; simpl; intros k; auto.
  destruct (JSNumber.candidate x num den n0 k); simpl; auto.
  specialize (IH (S k)). lia.
Qed.

Lemma shortestDecimal_k m e :
  (1 <= snd (fst (JSNumber.shortestDecimal m e)))%nat.
Proof.
  unfold JSNumber.shortestDecimal.
  set (num := if 0 <=? e then _ else _).
  set (den := if 0 <=? e then 1 else _).
  pose proof (shortest_k (S754_finite false m e) num den
                (JSNumber.decimalExponent num den) 17 1) as H.
  destruct (JSNumber.shortest _ _ _ _ _ _) as [s k]. simpl in H.
  destruct (s =? 10 ^ Z.of_nat k); simpl; auto.
Qed.

Lemma toString_plain x :
  test NumberHandler.numericPattern (JSNumber.toString x)
  = JSNumber.rendersPlain x.
Proof.
  destruct x as [sg|sg| |sg m e];
    try (destruct sg; reflexivity); try reflexivity.
  unfold JSNumber.toString, JSNumber.rendersPlain.
  pose proof (shortestDecimal_k m e) as Hk.
  destruct (JSNumber.shortestDecimal m e) as [[n k] s]. simpl in Hk.
  destruct ((-5 <=? n) && (n <=? 21)) eqn:Hn.
  - apply test_matches, numericPattern_shape, formatDecimal_plain; auto.
    destruct sg; auto.
  - apply not_true_is_false. intros H.
    apply test_matches, numericPattern_shape in H.
    destruct (SignedDecimal_chars _ 101%N H) as [E|[E|E]]; try discriminate.
    apply in_or_app. right. now apply formatDecimal_exponent.
Qed.

End TextFacts.

(** ** Arithmetic: NaN, [Math.round], increments *)

Section NumberFacts.
Import RegExp.

Lemma add_NaN_r a : JSNumber.add a JSNumber.NaN = JSNumber.NaN.
Proof. now destruct a. Qed.
Lemma sub_NaN_r a : JSNumber.sub a JSNumber.NaN = JSNumber.NaN.
Proof. now destruct a. Qed.
Lemma isNaN_eq a : JSNumber.isNaN a = true -> a = JSNumber.NaN.
Proof. now destruct a. Qed.

Lemma newPosition_NaN s :
  JSNumber.isNaN (JSNumber.Number (previousPosition s))
  || JSNumber.isNaN (JSNumber.Number (offsetStart s))
  || JSNumber.isNaN (JSNumber.Number (offsetEnd s)) = true ->
  newPosition s = JSNumber.NaN.
Proof.
  unfold newPosition, shift. cbv zeta. intros H.
  apply orb_true_iff in H as [H|H]; [apply orb_true_iff in H as [H|H]|];
    apply isNaN_eq in H; rewrite H.
  - reflexivity.
  - now rewrite !sub_NaN_r.
  - now rewrite add_NaN_r, !sub_NaN_r.
Qed.

Lemma Math_round_nearest (sg : bool) (m : positive) (e : Z) :
  e < 0 ->
  let d := 2 ^ (- e) in
  let v := if sg then Z.neg m else Z.pos m in
  exists n,
    d * (2 * n - 1) <= 2 * v < d * (2 * n + 1) /\
    JSNumber.Math_round (S754_finite sg m e)
    = (if n =? 0 then S754_zero sg else JSNumber.ofZ n).
Proof.
  intros He d v. unfold JSNumber.Math_round.
  destruct (Z.leb_spec 0 e); [lia|]. fold d. fold v.
  exists ((2 * v + d) / (2 * d)). split; [|reflexivity].
  assert (Hd : 0 < d) by (apply Z.pow_pos_nonneg; lia).
  pose proof (Z.div_mod (2 * v + d) (2 * d) ltac:(lia)) as E.
  pose proof (Z.mod_pos_bound (2 * v + d) (2 * d) ltac:(lia)) as B.
  nia.
Qed.

Lemma incrementIfValid_value text delta :
  NumberHandler.incrementIfValid text delta
  = JSNumber.toString (Spec.incrementValue text delta).
Proof.
  destruct text as [|c t]; [reflexivity|].
  unfold NumberHandler.incrementIfValid, NumberHandler.isValidNumber,
    Spec.incrementValue.
  replace (str_length (c :: t) =? 0) with false
    by (unfold str_length; simpl List.length; symmetry; apply Z.eqb_neq; lia).
  cbv zeta. now destruct (JSNumber.add _ _).
Qed.

Lemma fieldOk_test w :
  Spec.fieldOk w = test NumberHandler.numericPattern w.
Proof.
  unfold Spec.fieldOk. destruct w; reflexivity.
Qed.

Lemma fieldOk_extractFirstWord raw :
  Spec.fieldOk (NumberHandler.extractFirstWord raw) = true.
Proof.
  unfold NumberHandler.extractFirstWord. cbv zeta.
  destruct (str_length _ =? 0); [reflexivity|].
  destruct (test _ _) eqn:E; [|reflexivity].
  now rewrite fieldOk_test.
Qed.

Lemma fieldOk_increment text delta :
  Spec.fieldOk (NumberHandler.incrementIfValid text delta)
  = JSNumber.rendersPlain (Spec.incrementValue text delta).
Proof. now rewrite incrementIfValid_value, fieldOk_test, toString_plain. Qed.


End NumberFacts.

(** ** Rounding never invents a NaN *)

Section RoundingFacts.
Variables prec emax : Z.

Lemma iter_pos_invariant {A} (P : A -> Prop) (f : A -> A) :
  (forall a, P a -> P (f a)) ->
  forall p a, P a -> P (iter_pos f p a).
Proof.
  intros Hf. induction p as [p IH|p IH|]; simpl; intros a Ha; auto.
Qed.

Lemma shr_1_nonneg mrs : 0 <= shr_m mrs -> 0 <= shr_m (shr_1 mrs).
Proof.
  destruct mrs as [m r s]. simpl.
  destruct m as [|[p|p|]|p]; simpl; lia.
Qed.

Lemma shr_nonneg mrs e n : 0 <= shr_m mrs -> 0 <= shr_m (fst (shr mrs e n)).
Proof.
  intros H. destruct n as [|p|p]; simpl; auto.
  apply (iter_pos_invariant (fun a => 0 <= shr_m a)); auto using shr_1_nonneg.
Qed.

Lemma shr_fexp_nonneg m e l :
  0 <= m -> 0 <= shr_m (fst (shr_fexp prec emax m e l)).
Proof.
  intros H. unfold shr_fexp. apply shr_nonneg. now destruct l as [|[]].
Qed.

Lemma round_nearest_even_nonneg m l : 0 <= m -> 0 <= round_nearest_even m l.
Proof.
  intros H. destruct l as [|[]]; simpl; try lia. destruct (Z.even m); lia.
Qed.

Lemma binary_round_aux_not_nan sx mx ex lx :
  0 <= mx -> binary_round_aux prec emax sx mx ex lx <> S754_nan.
Proof.
  intros H. unfold binary_round_aux.
  pose proof (shr_fexp_nonneg mx ex lx H) as H1.
  destruct (shr_fexp prec emax mx ex lx) as [mrs' e']. simpl in H1.
  pose proof (shr_fexp_nonneg _ e' loc_Exact
                (round_nearest_even_nonneg _ (loc_of_shr_record mrs') H1))
    as H2.
  destruct (shr_fexp prec emax _ e' loc_Exact) as [mrs'' e'']. simpl in H2.
  destruct (shr_m mrs'') as [|p|p]; try discriminate; try lia.
  destruct (e'' <=? emax - prec); discriminate.
Qed.

Lemma binary_round_not_nan sx mx ex :
  binary_round prec emax sx mx ex <> S754_nan.
Proof.
  unfold binary_round. destruct (shl_align mx ex _) as [mz ez].
  apply binary_round_aux_not_nan. lia.
Qed.

Lemma SFdiv_finite_not_nan sx mx ex sy my ey :
  SFdiv prec emax (S754_finite sx mx ex) (S754_finite sy my ey) <> S754_nan.
Proof.
  unfold SFdiv, SFdiv_core_binary.
  set (e' := Z.min _ _). set (m' := match _ with Z0 => Z.pos mx | _ => _ end).
  assert (Hm : 0 <= m').
  { unfold m'. destruct (ex - ey - e'); try lia. apply Z.shiftl_nonneg. lia. }
  pose proof (Z.div_pos m' (Z.pos my) Hm eq_refl) as Hq.
  unfold Z.div in Hq. destruct (Z.div_eucl m' (Z.pos my)) as [q r].
  now apply binary_round_aux_not_nan.
Qed.

End RoundingFacts.

Lemma ofDecimal_not_NaN sg m e :
  JSNumber.isNaN (JSNumber.ofDecimal sg m e) = false.
Proof.
  unfold JSNumber.ofDecimal.
  destruct m as [|p|p]; try reflexivity.
  destruct (0 <=? e).
  - pose proof (binary_round_not_nan JSNumber.prec JSNumber.emax sg
                  (Z.to_pos (Z.pos p * 10 ^ e)) 0) as H.
    now destruct (binary_round _ _ _ _ _).
  - pose proof (SFdiv_finite_not_nan JSNumber.prec JSNumber.emax sg p 0
                  false (Z.to_pos (10 ^ (- e))) 0) as H.
    unfold JSNumber.div. now destruct (SFdiv _ _ _ _).
Qed.

(** ** What [Number] makes of a text of the signed decimal shape *)

Section ReadingFacts.

Lemma isDigit_bounds c : JSString.isDigit c = true <-> (48 <= c <= 57)%N.
Proof.
  unfold JSString.isDigit. rewrite andb_true_iff, !N.leb_le. tauto.
Qed.

Lemma plainChar_not_space c :
  Spec.plainChar c -> JSString.isWhiteSpace c = false.
Proof.
  unfold Spec.plainChar, JSString.isWhiteSpace. intros H. decide_codes.
Qed.

Lemma dropWhile_none p s :
  forallb (fun c => negb (p c)) s = true -> JSString.dropWhile p s = s.
Proof.
  destruct s as [|c s]; simpl; auto.
  intros H. apply andb_true_iff in H as [H _].
  now destruct (p c).
Qed.

Lemma trim_none s :
  forallb (fun c => negb (JSString.isWhiteSpace c)) s = true ->
  JSString.trim s = s.
Proof.
  intros H. unfold JSString.trim, JSString.trimStart, JSString.trimEnd.
  rewrite (dropWhile_none _ s H), dropWhile_none; [apply rev_involutive|].
  apply forallb_forall. intros c Hc. apply in_rev in Hc.
  rewrite forallb_forall in H. auto.
Qed.

Lemma spanDigits_app ip r :
  forallb JSString.isDigit ip = true ->
  JSNumber.spanDigits (ip ++ r)
  = (ip ++ fst (JSNumber.spanDigits r), snd (JSNumber.spanDigits r)).
Proof.
  induction ip as [|c ip IH]; simpl; intros H.
  - now destruct (JSNumber.spanDigits r).
  - apply andb_true_iff in H as [Hc H]. unfold JSNumber.isDigit. rewrite Hc.
    now rewrite IH by assumption.
Qed.

Lemma spanDigits_all ip :
  forallb JSString.isDigit ip = true -> JSNumber.spanDigits ip = (ip, []).
Proof.
  intros H. rewrite <- (app_nil_r ip) at 1.
  rewrite spanDigits_app by assumption. simpl. now rewrite app_nil_r.
Qed.

Lemma startsWith_Infinity_digits t :
  (forall c, In c t -> Spec.plainChar c) ->
  JSString.startsWith (lit "Infinity") t = None.
Proof.
  destruct t as [|c t]; [reflexivity|]. intros H.
  specialize (H c (or_introl eq_refl)). unfold Spec.plainChar in H.
  change (JSString.startsWith (lit "Infinity") (c :: t))
    with (if (73 =? c)%N then JSString.startsWith (lit "nfinity") t else None).
  destruct (N.eqb_spec 73 c); [lia | reflexivity].
Qed.

(** What [scanUnsigned] finds in digits, an optional point and digits. *)
Lemma scanUnsigned_shape ip pt fp :
  forallb JSString.isDigit ip = true -> (pt = [] \/ pt = [46%N]) ->
  forallb JSString.isDigit fp = true ->
  match ip ++ fp with
  | [] => JSNumber.scanUnsigned (ip ++ pt ++ fp) = None
  | _ => exists m e,
      JSNumber.scanUnsigned (ip ++ pt ++ fp)
      = Some (JSNumber.SDecimal m e, [])
  end.
Proof.
  intros Hip Hpt Hfp. unfold JSNumber.scanUnsigned.
  rewrite startsWith_Infinity_digits.
  2:{ intros c Hc. unfold Spec.plainChar.
      rewrite forallb_forall in Hip, Hfp.
      repeat (apply in_app_or in Hc as [Hc|Hc]).
      - right. right. now apply isDigit_bounds, Hip.
      - destruct Hpt as [-> | ->]; simpl in Hc; intuition.
      - right. right. now apply isDigit_bounds, Hfp. }
  destruct Hpt as [-> | ->].
  - simpl app. rewrite spanDigits_all by (now rewrite forallb_app, Hip, Hfp).
    destruct (ip ++ fp) as [|c l]; [reflexivity|]. simpl. eauto.
  - rewrite spanDigits_app by assumption. simpl.
    rewrite spanDigits_all by assumption.
    destruct ip as [|c ip], fp as [|d fp]; simpl; eauto.
Qed.

Lemma scanDecimal_shape w :
  Spec.SignedDecimal w ->
  if existsb JSString.isDigit w
  then exists v, JSNumber.scanDecimal w = Some (v, [])
                 /\ JSNumber.isNaN v = false
  else JSNumber.scanDecimal w = None.
Proof.
  intros (sg & ip & pt & fp & -> & Hsg & Hip & Hpt & Hfp).
  pose proof (scanUnsigned_shape ip pt fp Hip Hpt Hfp) as H.
  assert (Hd : existsb JSString.isDigit (sg ++ ip ++ pt ++ fp)
               = match ip ++ fp with [] => false | _ => true end).
  { rewrite !existsb_app.
    replace (existsb JSString.isDigit sg) with false
      by (destruct Hsg as [-> | ->]; reflexivity).
    replace (existsb JSString.isDigit pt) with false
      by (destruct Hpt as [-> | ->]; reflexivity).
    destruct ip as [|c ip]; simpl in *.
    - destruct fp as [|d fp]; simpl in *; auto.
      apply andb_true_iff in Hfp as [-> _]. reflexivity.
    - apply andb_true_iff in Hip as [-> _]. reflexivity. }
  rewrite Hd. clear Hd.
  assert (Hs : JSNumber.scanDecimal (sg ++ ip ++ pt ++ fp)
               = match JSNumber.scanUnsigned (ip ++ pt ++ fp) with
                 | Some (JSNumber.SInfinity, r) =>
                     Some (S754_infinity (negb (Nat.eqb (List.length sg) 0)), r)
                 | Some (JSNumber.SDecimal m e, r) =>
                     Some (JSNumber.ofDecimal
                             (negb (Nat.eqb (List.length sg) 0)) m e, r)
                 | None => None
                 end).
  { unfold JSNumber.scanDecimal. destruct Hsg as [-> | ->]; simpl; auto.
    destruct (ip ++ pt ++ fp) as [|c l] eqn:E; [reflexivity|].
    assert (Hc : Spec.plainChar c /\ c <> 45%N).
    { destruct ip as [|a ip]; simpl in *.
      - destruct Hpt as [-> | ->]; simpl in E.
        + subst fp. simpl in Hfp. apply andb_true_iff in Hfp as [Hc _].
          apply isDigit_bounds in Hc. unfold Spec.plainChar. lia.
        + injection E as <- _. unfold Spec.plainChar. lia.
      - injection E as <- _. apply andb_true_iff in Hip as [Hc _].
        apply isDigit_bounds in Hc. unfold Spec.plainChar. lia. }
    destruct Hc as [Hc Hn]. unfold Spec.plainChar in Hc.
    destruct (N.eqb_spec c 43); [lia|].
    destruct (N.eqb_spec c 45); [lia|]. reflexivity. }
  rewrite Hs. clear Hs.
  destruct (ip ++ fp) as [|c l].
  - now rewrite H.
  - destruct H as (m & e & ->). eexists. split; [reflexivity|].
    apply ofDecimal_not_NaN.
Qed.

Lemma scanNonDecimal_shape w :
  Spec.SignedDecimal w -> JSNumber.scanNonDecimal w = None.
Proof.
  intros H. destruct w as [|z [|c t]]; try reflexivity.
  pose proof (SignedDecimal_chars _ c H (or_intror (or_introl eq_refl))) as Hc.
  rewrite isDigit_bounds in Hc. simpl.
  destruct (negb (z =? 48)%N); [reflexivity|]. decide_codes.
Qed.

(** On a text of the signed decimal shape, [Number] gives NaN exactly
    when the text is not empty and has no digit: "-", "." and "-.". *)
Lemma Number_signedDecimal w :
  Spec.SignedDecimal w ->
  JSNumber.isNaN (JSNumber.Number w)
  = negb (existsb JSString.isDigit w) && negb (str_length w =? 0).
Proof.
  intros H. unfold JSNumber.Number.
  rewrite trim_none.
  2:{ apply forallb_forall. intros c Hc.
      rewrite plainChar_not_space; [reflexivity|].
      pose proof (SignedDecimal_chars _ c H Hc) as Hp.
      rewrite isDigit_bounds in Hp. exact Hp. }
  pose proof (scanDecimal_shape w H) as Hs.
  pose proof (scanNonDecimal_shape w H) as Hn.
  destruct w as [|c w]; [reflexivity|].
  rewrite Hn.
  replace (str_length (c :: w) =? 0) with false
    by (unfold str_length; simpl List.length; symmetry; apply Z.eqb_neq; lia).
  rewrite andb_true_r.
  destruct (existsb JSString.isDigit (c :: w)).
  - destruct Hs as (v & -> & Hv). exact Hv.
  - now rewrite Hs.
Qed.

(** A session of well-shaped fields one of which is a bare "-", "." or
    "-." computes NaN. *)
Corollary newPosition_bare_sign s f :
  Spec.fieldsOk s = true ->
  negb (existsb JSString.isDigit (field f s))
  && negb (str_length (field f s) =? 0) = true ->
  newPosition s = JSNumber.NaN.
Proof.
  unfold Spec.fieldsOk. intros H Hf.
  apply andb_true_iff in H as [H H3]. apply andb_true_iff in H as [H1 H2].
  rewrite fieldOk_test in H1, H2, H3.
  apply test_matches, numericPattern_shape in H1, H2, H3.
  apply newPosition_NaN.
  destruct f; simpl in Hf;
    rewrite <- Number_signedDecimal in Hf by assumption; rewrite Hf;
    now rewrite ?orb_true_r.
Qed.


End ReadingFacts.

(** ** Rounding to the nearest integer *)

Section IntegerFacts.

Lemma digits2_size p : digits2_pos p = Pos.size p.
Proof. induction p; simpl; congruence. Qed.

Lemma digits2_bound p : Z.pos p < 2 ^ 53 -> Z.pos (digits2_pos p) <= 53.
Proof.
  intros H. rewrite digits2_size.
  pose proof (Pos.size_le p) as L.
  destruct (Z.le_gt_cases (Z.pos (Pos.size p)) 53) as [|G]; [assumption|].
  exfalso.
  assert (E : (2 ^ 53 <= 2 ^ (Z.pos (Pos.size p) - 1))%Z)
    by (apply Z.pow_le_mono_r; lia).
  assert (F : (2 ^ Z.pos (Pos.size p) <= 2 * Z.pos p)%Z).
  { rewrite <- Pos2Z.inj_pow. change (2 * Z.pos p) with (Z.pos p~0).
    apply Pos2Z.pos_le_pos. exact L. }
  replace (Z.pos (Pos.size p)) with (Z.pos (Pos.size p) - 1 + 1) in F by lia.
  rewrite Z.pow_add_r in F by lia. lia.
Qed.

Lemma digits2_iter_xO p k :
  digits2_pos (Pos.iter xO p k) = (digits2_pos p + k)%positive.
Proof.
  induction k using Pos.peano_ind.
  - simpl. lia.
  - rewrite Pos.iter_succ. simpl. rewrite IHk. lia.
Qed.

Lemma iter_xO_value p k : Z.pos (Pos.iter xO p k) = Z.pos p * 2 ^ Z.pos k.
Proof.
  induction k using Pos.peano_ind.
  - simpl. lia.
  - rewrite Pos.iter_succ, Pos2Z.inj_xO, IHk, Pos2Z.inj_succ, Z.pow_succ_r; lia.
Qed.

(** A mantissa of 53 bits at a small exponent is kept by the final
    rounding. *)
Lemma binary_round_aux_53 s mz ez :
  Z.pos (digits2_pos mz) = 53 -> -52 <= ez <= 0 ->
  binary_round_aux JSNumber.prec JSNumber.emax s (Z.pos mz) ez loc_Exact
  = S754_finite s mz ez.
Proof.
  intros Hd He. unfold binary_round_aux.
  assert (F : shr_fexp JSNumber.prec JSNumber.emax (Z.pos mz) ez loc_Exact
              = (Build_shr_record (Z.pos mz) false false, ez)).
  { unfold shr_fexp, fexp, emin, Zdigits2, JSNumber.prec, JSNumber.emax.
    rewrite Hd.
    replace (Z.max (53 + ez - 53) (3 - 1024 - 53) - ez) with 0 by lia.
    reflexivity. }
  rewrite F. cbn [shr_m loc_of_shr_record round_nearest_even]. rewrite F.
  cbn [shr_m]. unfold JSNumber.prec, JSNumber.emax.
  destruct (Z.leb_spec ez (1024 - 53)); [reflexivity | lia].
Qed.

Lemma binary_round_small s p :
  Z.pos p < 2 ^ 53 ->
  exists m e,
    binary_round JSNumber.prec JSNumber.emax s p 0 = S754_finite s m e
    /\ e <= 0 /\ Z.pos m = Z.pos p * 2 ^ (- e).
Proof.
  intros H. pose proof (digits2_bound p H) as D.
  unfold binary_round, shl_align, fexp, emin, JSNumber.prec, JSNumber.emax.
  replace (Z.max (Z.pos (digits2_pos p) + 0 - 53) (3 - 1024 - 53) - 0)
    with (Z.pos (digits2_pos p) - 53) by lia.
  replace (Z.max (Z.pos (digits2_pos p) + 0 - 53) (3 - 1024 - 53))
    with (Z.pos (digits2_pos p) - 53) by lia.
  destruct (Z.pos (digits2_pos p) - 53) as [|k|k] eqn:E; try lia.
  - exists p, 0. split; [|split; [lia | simpl; lia]].
    apply (binary_round_aux_53 s p 0); lia.
  - exists (Pos.iter xO p k), (Z.neg k). split; [|split; [lia|]].
    + apply binary_round_aux_53; [|lia].
      rewrite digits2_iter_xO. lia.
    + apply iter_xO_value.
Qed.

Lemma ofZ_exact n :
  n <> 0 -> Z.abs n < 2 ^ 53 -> Exact.representsZ (JSNumber.ofZ n) n.
Proof.
  intros Hn Hb. unfold JSNumber.ofZ, binary_normalize.
  destruct n as [|p|p]; [contradiction| |].
  - destruct (binary_round_small false p Hb) as (m & e & -> & He & Hm).
    unfold Exact.representsZ, Exact.signedMantissa.
    destruct (Z.leb_spec 0 e).
    + replace e with 0 in * by lia. simpl in *. lia.
    + exact Hm.
  - destruct (binary_round_small true p Hb) as (m & e & -> & He & Hm).
    unfold Exact.representsZ, Exact.signedMantissa.
    destruct (Z.leb_spec 0 e).
    + replace e with 0 in * by lia. simpl in *. lia.
    + rewrite <- Pos2Z.opp_pos, Hm. lia.
Qed.

End IntegerFacts.

Section RoundFacts.

Lemma Math_round_integer s m e :
  Z.pos m < 2 ^ 53 ->
  exists n,
    Exact.nearestInteger s m e n
    /\ Exact.representsZ (JSNumber.Math_round (S754_finite s m e)) n.
Proof.
  intros Hm. unfold Exact.nearestInteger, JSNumber.Math_round.
  destruct (Z.leb_spec 0 e) as [He|He].
  - exists (Exact.signedMantissa s m * 2 ^ e). split; [reflexivity|].
    unfold Exact.representsZ. now destruct (Z.leb_spec 0 e); [|lia].
  - cbv zeta. fold (Exact.signedMantissa s m).
    set (v := Exact.signedMantissa s m). set (d := 2 ^ (- e)).
    set (n := (2 * v + d) / (2 * d)).
    assert (Hd : 2 <= d).
    { unfold d. change 2 with (2 ^ 1) at 1. apply Z.pow_le_mono_r; lia. }
    assert (Hv : - 2 ^ 53 < v < 2 ^ 53)
      by (unfold v, Exact.signedMantissa; destruct s; lia).
    pose proof (Z.div_mod (2 * v + d) (2 * d) ltac:(lia)) as E.
    pose proof (Z.mod_pos_bound (2 * v + d) (2 * d) ltac:(lia)) as B.
    fold n in E.
    assert (N : d * (2 * n - 1) <= 2 * v < d * (2 * n + 1)) by nia.
    exists n. split; [exact N|].
    destruct (Z.eqb_spec n 0) as [->|Hn]; [reflexivity|].
    apply ofZ_exact; [assumption|].
    assert (P : 2 ^ 53 = 9007199254740992) by reflexivity.
    rewrite P in *. nia.
Qed.

End RoundFacts.

Section BoundFacts.
Variables prec emax : Z.
Hypothesis prec_pos : 0 < prec.

Lemma iter_pos_nat {A} (f : A -> A) p :
  forall a, iter_pos f p a = Nat.iter (Pos.to_nat p) f a.
Proof.
  assert (C : forall n a, Nat.iter n f (f a) = f (Nat.iter n f a)).
  { induction n; simpl; intros; congruence. }
  assert (D : forall n a, Nat.iter n f (Nat.iter n f a) = Nat.iter (2 * n) f a).
  { intros n a. replace (2 * n)%nat with (n + n)%nat by lia.
    symmetry. apply Nat.iter_add. }
  induction p as [p IH|p IH|]; intros a; cbn [iter_pos].
  - rewrite !IH, Pos2Nat.inj_xI, !C, D. reflexivity.
  - rewrite !IH, Pos2Nat.inj_xO, D. reflexivity.
  - reflexivity.
Qed.

Lemma shr_1_half mrs :
  0 <= shr_m mrs -> shr_m (shr_1 mrs) = shr_m mrs / 2.
Proof.
  destruct mrs as [m r s]. simpl. intros H.
  destruct m as [|[p|p|]|p]; simpl; try lia; try reflexivity.
  - rewrite Pos2Z.inj_xI.
    apply (Z.div_unique_pos _ 2 (Z.pos p) 1); lia.
  - rewrite Pos2Z.inj_xO.
    apply (Z.div_unique_pos _ 2 (Z.pos p) 0); lia.
Qed.

Lemma shr_iter_bound n : forall mrs b,
  0 <= shr_m mrs < 2 ^ (b + Z.of_nat n) -> 0 <= b ->
  0 <= shr_m (Nat.iter n shr_1 mrs) < 2 ^ b.
Proof.
  induction n as [|n IH]; intros mrs b H Hb.
  - simpl. now rewrite Z.add_0_r in H.
  - change (Nat.iter (S n) shr_1 mrs) with (shr_1 (Nat.iter n shr_1 mrs)).
    rewrite shr_1_half by (apply (IH mrs (b + 1)); [|lia];
      now replace (b + 1 + Z.of_nat n) with (b + Z.of_nat (S n)) by lia).
    specialize (IH mrs (b + 1)).
    replace (b + 1 + Z.of_nat n) with (b + Z.of_nat (S n)) in IH by lia.
    specialize (IH H ltac:(lia)).
    rewrite Z.pow_add_r in IH by lia. change (2 ^ 1) with 2 in IH.
    split; [apply Z.div_pos; lia|].
    apply Z.div_lt_upper_bound; lia.
Qed.

Lemma Zdigits2_bound z : 0 <= z -> z < 2 ^ Zdigits2 z.
Proof.
  destruct z as [|p|p]; intros H; simpl; try lia.
  rewrite digits2_size.
  pose proof (Pos.size_gt p) as G. apply Pos2Z.pos_lt_pos in G.
  now rewrite Pos2Z.inj_pow in G.
Qed.

Lemma Zdigits2_nonneg z : 0 <= Zdigits2 z.
Proof. destruct z; simpl; lia. Qed.

(** After [shr_fexp] the mantissa fits into [prec] bits. *)
Lemma shr_fexp_bound z e l :
  0 <= z -> 0 <= shr_m (fst (shr_fexp prec emax z e l)) < 2 ^ prec.
Proof.
  intros Hz. unfold shr_fexp, shr.
  pose proof (Zdigits2_bound z Hz) as B.
  pose proof (Zdigits2_nonneg z) as D.
  assert (M : shr_m (shr_record_of_loc z l) = z) by now destruct l as [|[]].
  set (n := fexp prec emax (Zdigits2 z + e) - e).
  assert (N : Zdigits2 z - prec <= n) by (unfold n, fexp; lia).
  destruct n as [|p|p] eqn:E; cbn [fst].
  - rewrite M. split; [lia|].
    apply Z.lt_le_trans with (1 := B). apply Z.pow_le_mono_r; lia.
  - rewrite iter_pos_nat.
    apply shr_iter_bound; [|lia]. rewrite M. split; [lia|].
    apply Z.lt_le_trans with (1 := B). apply Z.pow_le_mono_r; lia.
  - rewrite M. split; [lia|].
    apply Z.lt_le_trans with (1 := B). apply Z.pow_le_mono_r; lia.
Qed.

Lemma binary_round_aux_bound sx mx ex lx s m e :
  0 <= mx ->
  binary_round_aux prec emax sx mx ex lx = S754_finite s m e ->
  Z.pos m < 2 ^ prec.
Proof.
  intros H. unfold binary_round_aux.
  pose proof (shr_fexp_nonneg prec emax mx ex lx H) as H1.
  destruct (shr_fexp prec emax mx ex lx) as [mrs' e'']. simpl in H1.
  pose proof (shr_fexp_bound
                (round_nearest_even (shr_m mrs') (loc_of_shr_record mrs'))
                e'' loc_Exact
                (round_nearest_even_nonneg _ (loc_of_shr_record mrs') H1))
    as H2.
  destruct (shr_fexp prec emax _ e'' loc_Exact) as [mrs e1]. simpl in H2.
  destruct (shr_m mrs) as [|p|p]; try discriminate.
  destruct (e1 <=? emax - prec); [|discriminate].
  intros E. injection E as _ <- _. lia.
Qed.

End BoundFacts.

Lemma mul_finite_bound a b s m e :
  JSNumber.mul a b = S754_finite s m e -> Z.pos m < 2 ^ 53.
Proof.
  destruct a as [sa|sa| |sa ma ea], b as [sb|sb| |sb mb eb];
    try discriminate.
  unfold JSNumber.mul, SFmul.
  apply (binary_round_aux_bound JSNumber.prec JSNumber.emax eq_refl). lia.
Qed.

(** [precise] on a Number whose product with 1e8 is finite: the product
    is replaced by the integer nearest to it, and that is divided. *)
Lemma precise_nearest num s m e :
  JSNumber.mul num (JSNumber.ofZ (10 ^ 8)) = S754_finite s m e ->
  exists n r,
    Exact.nearestInteger s m e n /\ Exact.representsZ r n
    /\ NumberHandler.precise num = JSNumber.div r (JSNumber.ofZ (10 ^ 8)).
Proof.
  intros Hp. pose proof (mul_finite_bound _ _ _ _ _ Hp) as Hm.
  destruct (Math_round_integer s m e Hm) as (n & Hn & Hr).
  exists n, (JSNumber.Math_round (S754_finite s m e)).
  split; [exact Hn | split; [exact Hr|]].
  unfold NumberHandler.precise.
  change NumberHandler.c1e8 with (JSNumber.ofZ (10 ^ 8)). now rewrite Hp.
Qed.

(** ** The decimal exponent and the magnitude *)

Section DecimalExponentFacts.
Import Magnitude.

Lemma countDigits_spec fuel : forall q,
  1 <= q < 2 ^ (Z.of_nat fuel + 1) ->
  10 ^ (Z.of_nat (JSNumber.countDigits fuel q) - 1) <= q
  < 10 ^ Z.of_nat (JSNumber.countDigits fuel q).
Proof.
  induction fuel as [|f IH]; intros q Hq.
  - simpl in *. lia.
  - cbn [JSNumber.countDigits]. destruct (Z.ltb_spec q 10) as [L|G].
    + simpl. lia.
    + assert (Hq' : 1 <= q / 10 < 2 ^ (Z.of_nat f + 1)).
      { split; [apply Z.div_le_lower_bound; lia|].
        apply Z.div_lt_upper_bound; [lia|].
        replace (Z.of_nat (S f) + 1) with (Z.of_nat f + 1 + 1) in Hq by lia.
        rewrite Z.pow_add_r in Hq by lia. lia. }
      specialize (IH _ Hq').
      set (c := JSNumber.countDigits f (q / 10)) in *.
      assert (Hc : 1 <= Z.of_nat c).
      { destruct c; [|lia]. simpl in IH. lia. }
      rewrite Nat2Z.inj_succ.
      replace (Z.succ (Z.of_nat c) - 1) with (Z.of_nat c - 1 + 1) by lia.
      rewrite Z.pow_add_r, Z.pow_succ_r by lia. change (10 ^ 1) with 10.
      pose proof (Z.div_mod q 10 ltac:(lia)).
      pose proof (Z.mod_pos_bound q 10 ltac:(lia)). lia.
Qed.

Lemma numDigits_spec q :
  1 <= q ->
  10 ^ (Z.of_nat (JSNumber.numDigits q) - 1) <= q
  < 10 ^ Z.of_nat (JSNumber.numDigits q).
Proof.
  intros Hq. apply countDigits_spec.
  pose proof (Z.log2_spec q ltac:(lia)) as L.
  pose proof (Z.log2_nonneg q).
  rewrite Z2Nat.id by assumption. unfold Z.succ in L. lia.
Qed.

Lemma leadingZeros_spec fuel : forall num den,
  0 < num < den -> den <= num * 10 ^ (Z.of_nat fuel + 1) ->
  let j := JSNumber.leadingZeros fuel num den in
  1 <= j /\ den <= num * 10 ^ j /\ num * 10 ^ (j - 1) < den.
Proof.
  induction fuel as [|f IH]; intros num den Hn Hd; cbv zeta.
  - simpl in *. lia.
  - cbn [JSNumber.leadingZeros]. destruct (Z.leb_spec den (num * 10)) as [L|G].
    + simpl. lia.
    + assert (Hd' : den <= num * 10 * 10 ^ (Z.of_nat f + 1)).
      { replace (Z.of_nat (S f) + 1) with (1 + (Z.of_nat f + 1)) in Hd by lia.
        rewrite Z.pow_add_r in Hd by lia. change (10 ^ 1) with 10 in Hd. lia. }
      destruct (IH (num * 10) den ltac:(lia) Hd') as (J1 & J2 & J3).
      set (j := JSNumber.leadingZeros f (num * 10) den) in *.
      split; [lia|]. split.
      * rewrite Z.pow_add_r by lia. change (10 ^ 1) with 10. lia.
      * replace (1 + j - 1) with (1 + (j - 1)) by lia.
        rewrite Z.pow_add_r by lia. change (10 ^ 1) with 10. lia.
Qed.

(** [decimalExponent] is the decimal exponent: the fraction lies between
    the two powers of ten. *)
Lemma decimalExponent_spec num den :
  0 < num -> 0 < den ->
  atLeastPow10 num den (JSNumber.decimalExponent num den - 1) = true
  /\ belowPow10 num den (JSNumber.decimalExponent num den) = true.
Proof.
  intros Hn Hd. unfold JSNumber.decimalExponent.
  destruct (Z.leb_spec den num) as [L|G].
  - assert (Hq : 1 <= num / den) by (apply Z.div_le_lower_bound; lia).
    pose proof (numDigits_spec _ Hq) as [A B].
    set (c := Z.of_nat (JSNumber.numDigits (num / den))) in *.
    assert (Hc : 1 <= c).
    { destruct (Z.le_gt_cases 1 c); [assumption|].
      assert (c = 0) by lia. subst c. rewrite H0 in B. simpl in B. lia. }
    pose proof (Z.div_mod num den ltac:(lia)) as E.
    pose proof (Z.mod_pos_bound num den ltac:(lia)) as M.
    unfold atLeastPow10, belowPow10.
    destruct (Z.leb_spec 0 (c - 1)); [|lia].
    destruct (Z.leb_spec 0 c); [|lia].
    split; [apply Z.leb_le | apply Z.ltb_lt]; nia.
  - pose proof (Z.log2_spec den ltac:(lia)) as L2.
    pose proof (Z.log2_nonneg den) as L0.
    assert (F : den <= num * 10 ^ (Z.of_nat (Z.to_nat (Z.log2 den)) + 1)).
    { rewrite Z2Nat.id by assumption.
      assert (2 ^ (Z.log2 den + 1) <= 10 ^ (Z.log2 den + 1))
        by (apply Z.pow_le_mono_l; lia).
      unfold Z.succ in L2.
      set (P := 10 ^ (Z.log2 den + 1)) in *.
      assert (P0 : 0 <= P) by lia.
      assert (1 * P <= num * P)
        by (apply Z.mul_le_mono_nonneg_r; lia).
      lia. }
    destruct (leadingZeros_spec _ num den ltac:(lia) F) as (J1 & J2 & J3).
    set (j := JSNumber.leadingZeros _ num den) in *. clearbody j.
    unfold atLeastPow10, belowPow10.
    destruct (Z.leb_spec 0 (1 - j - 1)); [lia|].
    replace (- (1 - j - 1)) with j by lia.
    split; [now apply Z.leb_le|].
    destruct (Z.leb_spec 0 (1 - j)).
    + assert (j = 1) by lia. subst j. apply Z.ltb_lt.
      change (10 ^ (1 - 1)) with 1 in *. lia.
    + replace (- (1 - j)) with (j - 1) by lia. now apply Z.ltb_lt.
Qed.

Lemma belowPow10_mono num den a b :
  0 <= num -> 0 < den -> a <= b ->
  belowPow10 num den a = true -> belowPow10 num den b = true.
Proof.
  intros Hn Hd Hab. unfold belowPow10.
  destruct (Z.leb_spec 0 a), (Z.leb_spec 0 b); try lia;
    rewrite !Z.ltb_lt; intros K.
  - assert (10 ^ a <= 10 ^ b) by (apply Z.pow_le_mono_r; lia). nia.
  - assert (1 <= 10 ^ (- a)) by (apply (Z.pow_le_mono_r 10 0); lia).
    assert (1 <= 10 ^ b) by (apply (Z.pow_le_mono_r 10 0); lia).
    nia.
  - assert (10 ^ (- b) <= 10 ^ (- a)) by (apply Z.pow_le_mono_r; lia). nia.
Qed.

Lemma atLeastPow10_mono num den a b :
  0 <= num -> 0 < den -> a <= b ->
  atLeastPow10 num den b = true -> atLeastPow10 num den a = true.
Proof.
  intros Hn Hd Hab. unfold atLeastPow10.
  destruct (Z.leb_spec 0 a), (Z.leb_spec 0 b); try lia;
    rewrite !Z.leb_le; intros K.
  - assert (10 ^ a <= 10 ^ b) by (apply Z.pow_le_mono_r; lia). nia.
  - assert (1 <= 10 ^ (- a)) by (apply (Z.pow_le_mono_r 10 0); lia).
    assert (1 <= 10 ^ b) by (apply (Z.pow_le_mono_r 10 0); lia).
    nia.
  - assert (10 ^ (- b) <= 10 ^ (- a)) by (apply Z.pow_le_mono_r; lia). nia.
Qed.

Lemma pow10_exclusive num den a b :
  0 <= num -> 0 < den ->
  atLeastPow10 num den a = true -> belowPow10 num den b = true -> a < b.
Proof.
  intros Hn Hd A B. destruct (Z.lt_ge_cases a b) as [|G]; [assumption|].
  exfalso. apply (belowPow10_mono num den b a Hn Hd ltac:(lia)) in B.
  unfold atLeastPow10, belowPow10 in *.
  destruct (Z.leb_spec 0 a);
    apply Z.leb_le in A; apply Z.ltb_lt in B; lia.
Qed.

End DecimalExponentFacts.

Section ShortestFacts.
Import Magnitude.

Lemma number_eqb_eq a b : JSNumber.number_eqb a b = true -> a = b.
Proof.
  destruct a as [s|s| |s m e], b as [t|t| |t n f]; simpl;
    try discriminate; intros H.
  - now rewrite (eqb_prop _ _ H).
  - now rewrite (eqb_prop _ _ H).
  - reflexivity.
  - apply andb_true_iff in H as [H He]. apply andb_true_iff in H as [Hs Hm].
    apply eqb_prop in Hs. apply Pos.eqb_eq in Hm. apply Z.eqb_eq in He.
    congruence.
Qed.

(** What [candidate] and [shortest] return is the integer below the
    scaled value, or the one above it when that reads back as [x]. *)
Lemma candidate_spec x num den n0 k s :
  JSNumber.candidate x num den n0 k = Some s ->
  s = fst (JSNumber.neighbours num den n0 k)
  \/ (s = fst (JSNumber.neighbours num den n0 k) + 1
      /\ JSNumber.ofDecimal false s (n0 - Z.of_nat k) = x).
Proof.
  unfold JSNumber.candidate.
  destruct (JSNumber.neighbours num den n0 k) as [lo c]. cbv zeta. cbn [fst].
  destruct (JSNumber.number_eqb (JSNumber.ofDecimal false lo _) x);
    destruct (JSNumber.number_eqb (JSNumber.ofDecimal false (lo + 1) _) x)
      eqn:Hi; try discriminate.
  - apply number_eqb_eq in Hi.
    destruct c; [destruct (Z.even lo)| |]; intros E; injection E as <-; auto.
  - intros E; injection E as <-; auto.
  - apply number_eqb_eq in Hi. intros E; injection E as <-; auto.
Qed.

Lemma shortest_spec x num den n0 : forall fuel k0 s k,
  JSNumber.shortest fuel x num den n0 k0 = (s, k) ->
  s = fst (JSNumber.neighbours num den n0 k)
  \/ (s = fst (JSNumber.neighbours num den n0 k) + 1
      /\ JSNumber.ofDecimal false s (n0 - Z.of_nat k) = x
      /\ (k0 <= k < k0 + fuel)%nat).
Proof.
  induction fuel as [|f IH]; intros k0 s k; cbn [JSNumber.shortest].
  - intros E. injection E as <- <-. now left.
  - destruct (JSNumber.candidate x num den n0 k0) as [c|] eqn:C.
    + intros E. injection E as <- <-.
      destruct (candidate_spec _ _ _ _ _ _ C) as [H | [H1 H2]]; auto.
      right. repeat split; auto; lia.
    + intros E. destruct (IH _ _ _ E) as [H | (H1 & H2 & H3)]; auto.
      right. repeat split; auto; lia.
Qed.

Lemma neighbours_below num den n0 k :
  0 <= num -> 0 < den -> belowPow10 num den n0 = true ->
  fst (JSNumber.neighbours num den n0 k) < 10 ^ Z.of_nat k.
Proof.
  intros Hn Hd B. unfold JSNumber.neighbours. cbv zeta. cbn [fst].
  unfold belowPow10 in B. set (kz := Z.of_nat k) in *.
  assert (Hk : 0 <= kz) by (unfold kz; lia).
  destruct (Z.leb_spec 0 (kz - n0)) as [P|P].
  - apply Z.div_lt_upper_bound; [assumption|].
    destruct (Z.leb_spec 0 n0); apply Z.ltb_lt in B.
    + replace kz with (n0 + (kz - n0)) at 2 by lia.
      rewrite Z.pow_add_r by lia.
      assert (0 < 10 ^ (kz - n0)) by (apply Z.pow_pos_nonneg; lia). nia.
    + replace (kz - n0) with (- n0 + kz) by lia.
      rewrite Z.pow_add_r by lia.
      assert (0 < 10 ^ kz) by (apply Z.pow_pos_nonneg; lia). nia.
  - destruct (Z.leb_spec 0 n0); [|lia]. apply Z.ltb_lt in B.
    assert (0 < 10 ^ (- (kz - n0))) by (apply Z.pow_pos_nonneg; lia).
    apply Z.div_lt_upper_bound; [nia|].
    replace n0 with (kz + - (kz - n0)) in B by lia.
    rewrite Z.pow_add_r in B by lia. nia.
Qed.

End ShortestFacts.

Section MagnitudeFacts.
Import Magnitude.

Lemma pow10_reads_1e21 k :
  (1 <= k < 18)%nat ->
  JSNumber.ofDecimal false (10 ^ Z.of_nat k) (21 - Z.of_nat k)
  = S754_finite false 7629394531250000 17.
Proof.
  intros H. do 18 (destruct k as [|k]; [try lia; vm_compute; reflexivity|]).
  lia.
Qed.

Lemma pow10_reads_micro k :
  (1 <= k < 18)%nat ->
  JSNumber.ofDecimal false (10 ^ Z.of_nat k) (-6 - Z.of_nat k) = micro.
Proof.
  intros H. do 18 (destruct k as [|k]; [try lia; vm_compute; reflexivity|]).
  lia.
Qed.

Lemma micro_value : micro = S754_finite false 4722366482869645 (-72).
Proof. vm_compute. reflexivity. Qed.

Lemma fraction_pos m e num den :
  fraction m e = (num, den) -> 0 < num /\ 0 < den.
Proof.
  unfold fraction.
  destruct (Z.leb_spec 0 e); intros E; apply pair_equal_spec in E as [<- <-].
  - assert (0 < 2 ^ e) by (apply Z.pow_pos_nonneg; lia).
    split; [apply Z.mul_pos_pos; lia | lia].
  - assert (0 < 2 ^ (- e)) by (apply Z.pow_pos_nonneg; lia). lia.
Qed.

Lemma shortestDecimal_fraction m e :
  JSNumber.shortestDecimal m e
  = (let '(num, den) := fraction m e in
     let n0 := JSNumber.decimalExponent num den in
     let '(s, k) :=
       JSNumber.shortest 17 (S754_finite false m e) num den n0 1 in
     if s =? 10 ^ Z.of_nat k then (n0 + 1, k, 10 ^ (Z.of_nat k - 1))
     else (n0, k, s)).
Proof.
  unfold JSNumber.shortestDecimal, fraction. now destruct (0 <=? e).
Qed.

Lemma range_exponent num den n0 :
  0 < num -> 0 < den ->
  atLeastPow10 num den (n0 - 1) = true -> belowPow10 num den n0 = true ->
  atLeastPow10 num den (-6) && belowPow10 num den 21
  = (-5 <=? n0) && (n0 <=? 21).
Proof.
  intros Hn Hd A B.
  destruct (Z.leb_spec (-5) n0) as [L|L]; cbn [andb].
  - destruct (Z.leb_spec n0 21) as [U|U].
    + rewrite (atLeastPow10_mono num den (-6) (n0 - 1)) by (auto; lia).
      now rewrite (belowPow10_mono num den n0 21) by (auto; lia).
    + destruct (belowPow10 num den 21) eqn:C; [|apply andb_false_r].
      pose proof (pow10_exclusive num den _ _ ltac:(lia) Hd A C). lia.
  - destruct (atLeastPow10 num den (-6)) eqn:C; [|reflexivity].
    pose proof (pow10_exclusive num den _ _ ltac:(lia) Hd C B). lia.
Qed.

(** A Number is written without an exponent exactly when it is a zero,
    or its magnitude is at least 10^-6 and below 10^21, or it is the
    Number 1e-6 (which is written 0.000001). *)
Lemma rendersPlain_magnitude a :
  JSNumber.rendersPlain a = plainMagnitude a.
Proof.
  destruct a as [sg|sg| |sg m e]; try reflexivity.
  unfold JSNumber.rendersPlain, plainMagnitude.
  destruct (JSNumber.number_eqb (S754_finite false m e) micro) eqn:Q.
  { apply number_eqb_eq in Q. rewrite micro_value in Q.
    injection Q as -> ->. vm_compute. reflexivity. }
  rewrite shortestDecimal_fraction.
  destruct (fraction m e) as [num den] eqn:F.
  destruct (fraction_pos _ _ _ _ F) as [Hn Hd].
  destruct (decimalExponent_spec num den Hn Hd) as [A B].
  rewrite orb_false_r, (range_exponent num den _ Hn Hd A B). cbv zeta.
  set (n0 := JSNumber.decimalExponent num den) in *.
  destruct (JSNumber.shortest 17 _ num den n0 1) as [s k] eqn:S.
  destruct (Z.eqb_spec s (10 ^ Z.of_nat k)) as [E|E]; [|reflexivity].
  destruct (shortest_spec _ _ _ _ _ _ _ _ S) as [H | (H1 & H2 & H3)].
  - pose proof (neighbours_below num den n0 k ltac:(lia) Hd B). lia.
  - rewrite E in H2.
    destruct (Z.eq_dec n0 (-6)) as [N|N].
    { rewrite N, pow10_reads_micro in H2 by lia.
      rewrite micro_value in H2, Q. injection H2 as <- <-.
      vm_compute in Q. discriminate Q. }
    destruct (Z.eq_dec n0 21) as [M|M].
    { rewrite M, pow10_reads_1e21 in H2 by lia.
      injection H2 as <- <-. rewrite M in B.
      vm_compute in F. injection F as <- <-.
      vm_compute in B. discriminate B. }
    destruct (Z.leb_spec (-5) (n0 + 1)), (Z.leb_spec (-5) n0),
      (Z.leb_spec (n0 + 1) 21), (Z.leb_spec n0 21); try reflexivity; lia.
Qed.

End MagnitudeFacts.

(* ------------------------------------------------------------------ *)
(** * The claims *)

Local Open Scope string_scope.

(** C1.  [calculateCenter] coerces the three fields with [Number], takes
    [shift = (offsetStart + offsetEnd) / 2 - offsetStart], stores the text
    of [precise (previousPosition - shift)] in [result] and sets [finished];
    nothing else changes.  The rounding is spelled out: the difference is
    multiplied by 1e8, the product goes through [Math.round] and the
    outcome is divided by 1e8; whenever the product is finite, what is
    divided is the integer nearest to it.  With 120, 20 and 60 the shift
    is 20 and the result "100"; with 0, -10 and 10 the result is "-10";
    with 0.3, 0.1 and 0.3 the difference is 0.19999999999999998 and the
    result "0.2"; with 1.123456789, 0.5 and 1.5 the shift is 0.5, the
    difference 0.623456789 and the result "0.62345679"; with 0.123456789
    and empty offsets the result is "0.12345679". *)
Theorem calculateCenter_formula :
  (forall s,
     let o1 := JSNumber.Number (offsetStart s) in
     let o2 := JSNumber.Number (offsetEnd s) in
     let prev := JSNumber.Number (previousPosition s) in
     let shift :=
       JSNumber.sub (JSNumber.div (JSNumber.add o1 o2) (JSNumber.ofZ 2)) o1 in
     calculateCenter s
     = {| axis := axis s;
          previousPosition := previousPosition s;
          offsetStart := offsetStart s;
          offsetEnd := offsetEnd s;
          result :=
            JSNumber.toString
              (JSNumber.div
                 (JSNumber.Math_round
                    (JSNumber.mul (JSNumber.sub prev shift)
                                  (JSNumber.ofZ (10 ^ 8))))
                 (JSNumber.ofZ (10 ^ 8)));
          finished := true |})
  /\ (forall s sg m e,
        JSNumber.mul
          (JSNumber.sub (JSNumber.Number (previousPosition s)) (shift s))
          (JSNumber.ofZ (10 ^ 8))
        = S754_finite sg m e ->
        exists n r,
          Exact.nearestInteger sg m e n /\ Exact.representsZ r n
          /\ result (calculateCenter s)
             = JSNumber.toString (JSNumber.div r (JSNumber.ofZ (10 ^ 8))))
  /\ shift (typed axis_x "120" "20" "60") = JSNumber.ofZ 20
  /\ result (calculateCenter (typed axis_x "120" "20" "60")) = lit "100"
  /\ shift (typed axis_x "0" "-10" "10") = JSNumber.ofZ 10
  /\ result (calculateCenter (typed axis_x "0" "-10" "10")) = lit "-10"
  /\ JSNumber.toString
       (JSNumber.sub (JSNumber.Number (lit "0.3"))
                     (shift (typed axis_x "0.3" "0.1" "0.3")))
     = lit "0.19999999999999998"
  /\ result (calculateCenter (typed axis_x "0.3" "0.1" "0.3")) = lit "0.2"
  /\ JSNumber.toString (shift (typed axis_x "1.123456789" "0.5" "1.5"))
     = lit "0.5"
  /\ JSNumber.toString
       (JSNumber.sub (JSNumber.Number (lit "1.123456789"))
                     (shift (typed axis_x "1.123456789" "0.5" "1.5")))
     = lit "0.623456789"
  /\ result (calculateCenter (typed axis_x "1.123456789" "0.5" "1.5"))
     = lit "0.62345679"
  /\ result (calculateCenter (typed axis_x "0.123456789" "" ""))
     = lit "0.12345679".
Proof.
  split; [intros s; reflexivity|].
  split.
  - intros s sg m e H.
    destruct (precise_nearest _ _ _ _ H) as (n & r & Hn & Hr & Hp).
    exists n, r. split; [exact Hn | split; [exact Hr|]].
    change (result (calculateCenter s))
      with (JSNumber.toString
              (NumberHandler.precise
                 (JSNumber.sub (JSNumber.Number (previousPosition s))
                               (shift s)))).
    now rewrite Hp.
  - repeat split; vm_compute; reflexivity.
Qed.

Lemma calculateCenter_formula_witness :
  let s := typed axis_x "1.123456789" "0.5" "1.5" in
  JSNumber.mul
    (JSNumber.sub (JSNumber.Number (previousPosition s)) (shift s))
    (JSNumber.ofZ (10 ^ 8))
  = S754_finite false 8367895372575539 (-27)
  /\ exists n r,
       Exact.nearestInteger false 8367895372575539 (-27) n
       /\ Exact.representsZ r n
       /\ result (calculateCenter s)
          = JSNumber.toString (JSNumber.div r (JSNumber.ofZ (10 ^ 8))).
Proof.
  cbv zeta. split; [vm_compute; reflexivity|].
  apply (proj1 (proj2 calculateCenter_formula)
           (typed axis_x "1.123456789" "0.5" "1.5")).
  vm_compute. reflexivity.
Defined.

(** C2, as stated, fails: empty fields are coerced to 0, not to NaN, so
    the session with all three fields empty gets the result "0". *)
Lemma calculate_empty_fields_not_NaN :
  previousPosition initialState = []
  /\ JSNumber.Number [] = S754_zero false
  /\ JSNumber.isNaN (newPosition initialState) = false
  /\ result (calculateCenter initialState) = lit "0"
  /\ result (calculateCenter initialState) <> lit "NaN".
Proof.
  repeat split; try (vm_compute; reflexivity). vm_compute. discriminate.
Qed.

(** C2, amended.  When at least one of the three fields is coerced to NaN
    by [Number] (text that is no numeric literal), the value computed is
    NaN and the stored result is the text "NaN"; [finished] is set all the
    same. *)
Theorem calculate_unparseable_NaN s :
  JSNumber.isNaN (JSNumber.Number (previousPosition s))
  || JSNumber.isNaN (JSNumber.Number (offsetStart s))
  || JSNumber.isNaN (JSNumber.Number (offsetEnd s)) = true ->
  JSNumber.isNaN (newPosition s) = true
  /\ result (calculateCenter s) = lit "NaN"
  /\ finished (calculateCenter s) = true.
Proof.
  intros H. apply newPosition_NaN in H.
  unfold calculateCenter, newPos. simpl. rewrite H. repeat split.
Qed.

Lemma calculate_unparseable_NaN_witness :
  JSNumber.isNaN (JSNumber.Number (lit "120"))
  || JSNumber.isNaN (JSNumber.Number (lit "-"))
  || JSNumber.isNaN (JSNumber.Number (lit "60")) = true
  /\ result (calculateCenter (typed axis_x "120" "-" "60")) = lit "NaN".
Proof.
  split; [vm_compute; reflexivity|].
  apply (calculate_unparseable_NaN (typed axis_x "120" "-" "60")).
  vm_compute; reflexivity.
Defined.

(** C3, as stated, fails: the source splits at the space character only.
    In "7<TAB>and more" the first token at white space is "7", which the
    specification's extractor returns; the source's first word is
    "7<TAB>and", which the pattern rejects. *)
Lemma extractor_tab_counterexample :
  let text := (lit "7" ++ [9%N] ++ lit "and more")%list in
  Spec.extractor text = lit "7"
  /\ NumberHandler.extractFirstWord text = []
  /\ NumberHandler.extractFirstWord text <> Spec.extractor text.
Proof.
  repeat split; try (vm_compute; reflexivity). vm_compute. discriminate.
Qed.

(** C3, amended.  [extractFirstWord] trims the text, takes what comes
    before the first space character (U+0020), and returns that word
    unchanged when it has the shape optional minus, digits, optional
    point, digits (every part possibly empty), the empty text otherwise;
    the examples of the specification hold. *)
Theorem extractFirstWord_first_word :
  (forall text,
     NumberHandler.extractFirstWord text
     = (let word := Spec.firstWord text in
        if Spec.isSignedDecimal word then word else []))
  /\ NumberHandler.extractFirstWord (lit "12.5") = lit "12.5"
  /\ NumberHandler.extractFirstWord (lit "-3.") = lit "-3."
  /\ NumberHandler.extractFirstWord (lit "abc") = lit ""
  /\ NumberHandler.extractFirstWord (lit "  7 and more") = lit "7"
  /\ NumberHandler.extractFirstWord (lit "") = lit ""
  /\ NumberHandler.extractFirstWord (lit "12.3.4") = lit ""
  /\ NumberHandler.extractFirstWord (lit "-") = lit "-"
  /\ NumberHandler.extractFirstWord (lit ".") = lit ".".
Proof.
  split; [apply extractFirstWord_spec|].
  repeat split; vm_compute; reflexivity.
Qed.

(** C4.  The source at the inputs of the claim: the empty field takes the
    text of the delta, "5" and -0.1 give "4.9", and "5" with 1e308 gives
    "Infinity": the sum 1e308 is finite and passes [isValidNumber], and
    [precise] then overflows when it multiplies by 1e8.  A sum that is
    itself infinite does give "0".  The same happens with the step of
    the user interface on a typed 1 followed by 308 zeros. *)
Theorem incrementIfValid_rounding_overflow :
  let big := JSNumber.ofDecimal false 1 308 in
  NumberHandler.incrementIfValid (lit "") INCREMENT = lit "0.1"
  /\ NumberHandler.incrementIfValid (lit "5") (JSNumber.neg INCREMENT)
     = lit "4.9"
  /\ NumberHandler.isValidNumber
       (JSNumber.add (JSNumber.parseFloat (lit "5")) big) = true
  /\ NumberHandler.precise
       (JSNumber.add (JSNumber.parseFloat (lit "5")) big)
     = JSNumber.Infinity
  /\ NumberHandler.incrementIfValid (lit "5") big = lit "Infinity"
  /\ NumberHandler.incrementIfValid (lit "1e308") big = lit "0"
  /\ NumberHandler.incrementIfValid
       (lit "1" ++ JSNumber.zeros 308)%list INCREMENT
     = lit "Infinity".
Proof. repeat split; vm_compute; reflexivity. Qed.

(** C5.  [RESET] returns the initial state, whatever the state and however
    it was reached: every text empty, the axis 'x', [finished] false. *)
Theorem reset_initial :
  (forall s, reducer s RESET = initialState)
  /\ (forall cs, run (runAll initialState cs) Reset = initialState)
  /\ initialState = mkState axis_x [] [] [] [] false.
Proof. repeat split. Qed.

(** C6, as stated, fails.  From the initial state, typing "-0.0999999"
    into the first row and pressing its up arrow leaves "1e-7" in the
    field, which is neither empty nor of the signed decimal shape. *)
Lemma increment_breaks_pattern :
  let s0 := run initialState (SetField PreviousPosition (lit "-0.0999999")) in
  let s1 := run s0 (Increment PreviousPosition INCREMENT) in
  reachable s1
  /\ Spec.fieldsOk s0 = true
  /\ previousPosition s1 = lit "1e-7"
  /\ Spec.fieldsOk s1 = false.
Proof.
  cbv zeta. split.
  - apply (reach_step _ (Increment PreviousPosition INCREMENT)).
    + apply (reach_step _ (SetField PreviousPosition (lit "-0.0999999")));
        [apply reach_init | exact I].
    + left. reflexivity.
  - repeat split; vm_compute; reflexivity.
Qed.

(** C6, amended.  From a session whose three fields are empty or of the
    signed decimal shape, every command other than an increment leads to
    such a session again ([SetField] stores what [extractFirstWord]
    returns); an increment does exactly when the number it stores is a
    zero, or has a magnitude of at least 10^-6 and below 10^21, or is in
    magnitude the Number 1e-6 (the binary64 value next below 10^-6,
    which is written 0.000001). *)
Theorem fieldsOk_step s c :
  Spec.fieldsOk s = true ->
  Spec.fieldsOk (run s c)
  = match c with
    | Increment f d =>
        Magnitude.plainMagnitude (Spec.incrementValue (field f s) d)
    | _ => true
    end.
Proof.
  unfold Spec.fieldsOk. intros H.
  apply andb_true_iff in H as [H H3]. apply andb_true_iff in H as [H1 H2].
  destruct c as [a|f raw|f d| | |]; try (destruct f); simpl;
    rewrite ?H1, ?H2, ?H3, ?fieldOk_extractFirstWord, ?fieldOk_increment,
      ?rendersPlain_magnitude, ?andb_true_r; reflexivity.
Qed.

Lemma fieldsOk_step_witness :
  Spec.fieldsOk (typed axis_x "4.9" "" "-") = true
  /\ Spec.fieldsOk
       (run (typed axis_x "4.9" "" "-") (Increment OffsetEnd INCREMENT))
     = true.
Proof.
  split; [vm_compute; reflexivity|].
  rewrite (fieldsOk_step (typed axis_x "4.9" "" "-")
             (Increment OffsetEnd INCREMENT)); vm_compute; reflexivity.
Defined.

(** C7.  Dismissing the result of a finished session sets [finished] to
    false and leaves the axis, the three fields and the result as they
    were. *)
Theorem dismiss_frame s :
  finished s = true ->
  finished (run s Dismiss) = false
  /\ previousPosition (run s Dismiss) = previousPosition s
  /\ offsetStart (run s Dismiss) = offsetStart s
  /\ offsetEnd (run s Dismiss) = offsetEnd s
  /\ axis (run s Dismiss) = axis s
  /\ result (run s Dismiss) = result s.
Proof. intros _. repeat split. Qed.

Lemma dismiss_frame_witness :
  let s := calculateCenter (typed axis_x "120" "20" "60") in
  finished s = true
  /\ finished (run s Dismiss) = false
  /\ previousPosition (run s Dismiss) = lit "120".
Proof.
  cbv zeta.
  pose proof (dismiss_frame (calculateCenter (typed axis_x "120" "20" "60"))
                eq_refl) as (H1 & H2 & _).
  split; [reflexivity | split; [exact H1 | rewrite H2; reflexivity]].
Defined.

(** C8.  Two sessions that agree on the three fields and differ in their
    axis get the same number and the same result text from
    [calculateCenter]. *)
Theorem axis_noninterference s1 s2 :
  previousPosition s1 = previousPosition s2 ->
  offsetStart s1 = offsetStart s2 ->
  offsetEnd s1 = offsetEnd s2 ->
  axis s1 <> axis s2 ->
  newPosition s1 = newPosition s2
  /\ result (calculateCenter s1) = result (calculateCenter s2).
Proof.
  intros Hp Hs He _. unfold calculateCenter, newPos, newPosition, shift.
  simpl. now rewrite Hp, Hs, He.
Qed.

Lemma axis_noninterference_witness :
  result (calculateCenter (typed axis_x "120" "20" "60"))
  = result (calculateCenter (typed axis_y "120" "20" "60")).
Proof.
  apply (axis_noninterference (typed axis_x "120" "20" "60")
           (typed axis_y "120" "20" "60"));
    [reflexivity | reflexivity | reflexivity | discriminate].
Defined.

(** C9.  [precise] multiplies by 1e8 (which is exactly 10^8), rounds with
    [Math.round] and divides by 1e8.  Whenever the product is finite, what
    is divided is the integer nearest to the product, a product halfway
    between two integers going to the larger one.  The value of
    0.1 + 0.2 - 0.3 is not zero (it is 2^-54), and [precise] takes it to
    +0, written "0"; 0.123456789 (whose product is 12345678.9 and a
    little) goes to 0.12345679, 0.19999999999999998 to 0.2, 2.5e-8 (whose
    product is exactly 2.5) to 3e-8 and -2.5e-8 to -2e-8, and 1.5 stays
    1.5. *)
Theorem precise_rounding :
  let residue :=
    JSNumber.sub (JSNumber.add (JSNumber.ofDecimal false 1 (-1))
                               (JSNumber.ofDecimal false 2 (-1)))
                 (JSNumber.ofDecimal false 3 (-1)) in
  let rounded (text : string) :=
    JSNumber.toString (NumberHandler.precise (JSNumber.Number (lit text))) in
  (forall num,
     NumberHandler.precise num
     = JSNumber.div
         (JSNumber.Math_round (JSNumber.mul num (JSNumber.ofZ (10 ^ 8))))
         (JSNumber.ofZ (10 ^ 8)))
  /\ JSNumber.ofZ (10 ^ 8)
     = S754_finite false (Z.to_pos (10 ^ 8 * 2 ^ 26)) (-26)
  /\ (forall num s m e,
        JSNumber.mul num (JSNumber.ofZ (10 ^ 8)) = S754_finite s m e ->
        exists n r,
          Exact.nearestInteger s m e n /\ Exact.representsZ r n
          /\ NumberHandler.precise num
             = JSNumber.div r (JSNumber.ofZ (10 ^ 8)))
  /\ residue = S754_finite false (Z.to_pos (2 ^ 52)) (-106)
  /\ NumberHandler.precise residue = S754_zero false
  /\ JSNumber.toString (NumberHandler.precise residue) = lit "0"
  /\ rounded "0.19999999999999998" = lit "0.2"
  /\ rounded "0.123456789" = lit "0.12345679"
  /\ JSNumber.mul (JSNumber.Number (lit "2.5e-8")) (JSNumber.ofZ (10 ^ 8))
     = S754_finite false (Z.to_pos (5 * 2 ^ 50)) (-51)
  /\ rounded "2.5e-8" = lit "3e-8"
  /\ rounded "-2.5e-8" = lit "-2e-8"
  /\ rounded "1.5" = lit "1.5".
Proof.
  cbv zeta. split; [intros num; reflexivity|].
  split; [vm_compute; reflexivity|].
  split; [exact precise_nearest|].
  repeat split; vm_compute; reflexivity.
Qed.

Lemma precise_rounding_witness :
  let num := JSNumber.Number (lit "0.123456789") in
  JSNumber.mul num (JSNumber.ofZ (10 ^ 8))
  = S754_finite false 6628035890302157 (-29)
  /\ exists n r,
       Exact.nearestInteger false 6628035890302157 (-29) n
       /\ Exact.representsZ r n
       /\ NumberHandler.precise num
          = JSNumber.div r (JSNumber.ofZ (10 ^ 8)).
Proof.
  cbv zeta. split; [vm_compute; reflexivity|].
  apply (proj1 (proj2 (proj2 precise_rounding))
           (JSNumber.Number (lit "0.123456789"))).
  vm_compute. reflexivity.
Defined.

(** C10.  A command that edits (the axis toggle, typing into a field, an
    arrow of a field) leaves [result] and [finished] alone and changes
    nothing but the slot it is aimed at: the axis, or the one field. *)
Theorem edit_frame s c t :
  target c = Some t -> agreeExcept t s (run s c).
Proof.
  unfold agreeExcept.
  destruct c as [a|f raw|f d| | |]; simpl; intros E; try discriminate;
    injection E as <-.
  all: split; [try destruct f; reflexivity|].
  all: split; [try destruct f; reflexivity | split].
  - congruence.
  - intros g _. now destruct g.
  - intros _. now destruct f.
  - intros g Hg. destruct f, g; try reflexivity; congruence.
  - intros _. now destruct f.
  - intros g Hg. destruct f, g; try reflexivity; congruence.
Qed.

Lemma edit_frame_witness :
  target (Increment OffsetStart INCREMENT) = Some (FieldSlot OffsetStart)
  /\ agreeExcept (FieldSlot OffsetStart) (typed axis_y "1" "2" "3")
       (run (typed axis_y "1" "2" "3") (Increment OffsetStart INCREMENT)).
Proof.
  split; [reflexivity|].
  apply (edit_frame (typed axis_y "1" "2" "3")
           (Increment OffsetStart INCREMENT)).
  reflexivity.
Defined.

(* ------------------------------------------------------------------ *)
(** * Further properties of the code *)

Local Close Scope string_scope.

(** ** What [extractFirstWord] keeps and what it drops *)

Section ExtractorFacts.
Import RegExp.

Lemma SignedDecimal_plain w c :
  Spec.SignedDecimal w -> In c w -> Spec.plainChar c.
Proof.
  intros H Hc. pose proof (SignedDecimal_chars _ c H Hc) as Hp.
  rewrite isDigit_bounds in Hp. exact Hp.
Qed.

Lemma SignedDecimal_no_space w :
  Spec.SignedDecimal w ->
  forallb (fun c => negb (JSString.isWhiteSpace c)) w = true.
Proof.
  intros H. apply forallb_forall. intros c Hc.
  now rewrite plainChar_not_space by eauto using SignedDecimal_plain.
Qed.

Lemma takeWhile_id p s : forallb p s = true -> JSString.takeWhile p s = s.
Proof.
  induction s as [|c s IH]; simpl; auto.
  intros H. apply andb_true_iff in H as [-> H]. now rewrite IH.
Qed.

Lemma firstWord_shaped w : Spec.SignedDecimal w -> Spec.firstWord w = w.
Proof.
  intros H. unfold Spec.firstWord.
  rewrite trim_none by now apply SignedDecimal_no_space.
  apply takeWhile_id, forallb_forall. intros c Hc.
  pose proof (SignedDecimal_plain _ _ H Hc) as Hp. unfold Spec.plainChar in Hp.
  destruct (N.eqb_spec c 32); [lia | reflexivity].
Qed.

Lemma extractFirstWord_shaped w :
  Spec.SignedDecimal w -> NumberHandler.extractFirstWord w = w.
Proof.
  intros H. rewrite extractFirstWord_spec. cbv zeta.
  rewrite firstWord_shaped by assumption.
  apply isSignedDecimal_iff in H. now rewrite H.
Qed.

Lemma extractFirstWord_is_shaped text :
  Spec.SignedDecimal (NumberHandler.extractFirstWord text).
Proof.
  rewrite extractFirstWord_spec. cbv zeta.
  destruct (Spec.isSignedDecimal (Spec.firstWord text)) eqn:E.
  - now apply isSignedDecimal_iff.
  - now apply isSignedDecimal_iff.
Qed.

End ExtractorFacts.

Section SurroundingFacts.

Lemma dropWhile_app_stop p a b :
  JSString.dropWhile p b = b ->
  JSString.dropWhile p (a ++ b) = JSString.dropWhile p a ++ b.
Proof.
  intros Hb. induction a as [|c a IH]; simpl; auto.
  now destruct (p c).
Qed.

Lemma forallb_rev (p : N -> bool) l :
  forallb p l = true -> forallb p (rev l) = true.
Proof.
  rewrite !forallb_forall. intros H c Hc. apply H. now apply in_rev.
Qed.

Lemma trimEnd_app w r :
  forallb (fun c => negb (JSString.isWhiteSpace c)) w = true ->
  JSString.trimEnd (w ++ r) = w ++ JSString.trimEnd r.
Proof.
  intros H. unfold JSString.trimEnd.
  rewrite rev_app_distr, dropWhile_app_stop, rev_app_distr, rev_involutive.
  - reflexivity.
  - now apply dropWhile_none, forallb_rev.
Qed.

Lemma trimEnd_prefix l : exists t, l = JSString.trimEnd l ++ t.
Proof.
  unfold JSString.trimEnd.
  exists (rev (JSString.takeWhile JSString.isWhiteSpace (rev l))).
  rewrite <- rev_app_distr, <- take_drop_while. now rewrite rev_involutive.
Qed.

Lemma takeWhile_app_stop p w r :
  forallb p w = true -> JSString.takeWhile p r = [] ->
  JSString.takeWhile p (w ++ r) = w.
Proof.
  intros Hw Hr. induction w as [|c w IH]; simpl in *; auto.
  apply andb_true_iff in Hw as [-> Hw]. now rewrite IH.
Qed.

Lemma firstWord_surrounded ws w tail :
  forallb JSString.isWhiteSpace ws = true ->
  forallb (fun c => negb (JSString.isWhiteSpace c)) w = true ->
  w <> [] ->
  tail = [] \/ (exists rest, tail = 32%N :: rest) ->
  Spec.firstWord (ws ++ w ++ tail) = w.
Proof.
  intros Hws Hw Hne Htail. unfold Spec.firstWord, JSString.trim.
  assert (Hs : JSString.trimStart (ws ++ w ++ tail) = w ++ tail).
  { unfold JSString.trimStart. rewrite dropWhile_app_all by assumption.
    destruct w as [|c w]; [contradiction|]. simpl in *.
    apply andb_true_iff in Hw as [Hc _].
    now destruct (JSString.isWhiteSpace c). }
  rewrite Hs, trimEnd_app by assumption.
  apply takeWhile_app_stop.
  - rewrite forallb_forall in *. intros c Hc. specialize (Hw c Hc).
    destruct (N.eqb_spec c 32) as [->|]; [discriminate | reflexivity].
  - destruct Htail as [-> | [rest ->]]; [reflexivity|].
    destruct (trimEnd_prefix (32%N :: rest)) as [t Ht].
    destruct (JSString.trimEnd (32%N :: rest)) as [|c l]; [reflexivity|].
    simpl in Ht. injection Ht as <- _. reflexivity.
Qed.

End SurroundingFacts.

(** ** [precise] and NaN *)

Section PreciseFacts.

Lemma c1e8_finite :
  NumberHandler.c1e8 = S754_finite false 6710886400000000 (-26).
Proof. reflexivity. Qed.

Lemma mul_c1e8_isNaN a :
  JSNumber.isNaN (JSNumber.mul a NumberHandler.c1e8) = JSNumber.isNaN a.
Proof.
  rewrite c1e8_finite. destruct a as [s|s| |s m e]; try reflexivity.
  unfold JSNumber.mul, SFmul.
  pose proof (binary_round_aux_not_nan JSNumber.prec JSNumber.emax
                (xorb s false) (Z.pos (m * 6710886400000000)) (e + -26)
                loc_Exact ltac:(lia)) as H.
  now destruct (binary_round_aux _ _ _ _ _ _).
Qed.

Lemma ofZ_isNaN n : JSNumber.isNaN (JSNumber.ofZ n) = false.
Proof.
  unfold JSNumber.ofZ, binary_normalize. destruct n as [|p|p]; [reflexivity| |].
  - pose proof (binary_round_not_nan JSNumber.prec JSNumber.emax false p 0).
    now destruct (binary_round _ _ _ _ _).
  - pose proof (binary_round_not_nan JSNumber.prec JSNumber.emax true p 0).
    now destruct (binary_round _ _ _ _ _).
Qed.

Lemma Math_round_isNaN a :
  JSNumber.isNaN (JSNumber.Math_round a) = JSNumber.isNaN a.
Proof.
  destruct a as [s|s| |s m e]; try reflexivity.
  unfold JSNumber.Math_round. destruct (0 <=? e); [reflexivity|].
  cbv zeta. destruct (_ =? 0); [reflexivity | apply ofZ_isNaN].
Qed.

Lemma div_c1e8_isNaN a :
  JSNumber.isNaN (JSNumber.div a NumberHandler.c1e8) = JSNumber.isNaN a.
Proof.
  rewrite c1e8_finite. destruct a as [s|s| |s m e]; try reflexivity.
  pose proof (SFdiv_finite_not_nan JSNumber.prec JSNumber.emax s m e
                false 6710886400000000 (-26)) as H.
  unfold JSNumber.div. now destruct (SFdiv _ _ _ _).
Qed.

Lemma precise_keeps_NaN a :
  JSNumber.isNaN (NumberHandler.precise a) = JSNumber.isNaN a.
Proof.
  unfold NumberHandler.precise.
  now rewrite div_c1e8_isNaN, Math_round_isNaN, mul_c1e8_isNaN.
Qed.

End PreciseFacts.

(** ** Reading back what [toString] writes *)

Section ReadBackFacts.

Lemma readsAs_Number t v : readsAs t v -> JSNumber.Number t = v.
Proof.
  intros (Ht & Hne & Hn & Hd). unfold JSNumber.Number. rewrite Ht.
  destruct t as [|c t]; [contradiction|]. now rewrite Hn, Hd.
Qed.

Lemma trimStart_of_trim t : JSString.trim t = t -> JSString.trimStart t = t.
Proof.
  unfold JSString.trim, JSString.trimStart. intros H.
  pose proof (take_drop_while JSString.isWhiteSpace t) as Ht.
  destruct (trimEnd_prefix (JSString.dropWhile JSString.isWhiteSpace t))
    as [u Hu].
  rewrite H in Hu.
  apply (f_equal (@List.length N)) in Hu.
  pose proof (f_equal (@List.length N) Ht) as Lt.
  rewrite length_app in Hu, Lt.
  destruct (JSString.takeWhile JSString.isWhiteSpace t) as [|c l].
  - now rewrite Ht at 2.
  - simpl in Lt. lia.
Qed.

Lemma readsAs_parseFloat t v : readsAs t v -> JSNumber.parseFloat t = v.
Proof.
  intros (Ht & Hne & Hn & Hd). unfold JSNumber.parseFloat.
  now rewrite trimStart_of_trim, Hd.
Qed.

Lemma SignedDecimal_readsAs w :
  Spec.SignedDecimal w -> existsb JSString.isDigit w = true ->
  exists v, readsAs w v /\ JSNumber.isNaN v = false.
Proof.
  intros H Hd. pose proof (scanDecimal_shape w H) as Hs. rewrite Hd in Hs.
  destruct Hs as (v & Hs & Hv). exists v. split; [|assumption].
  repeat split.
  - now apply trim_none, SignedDecimal_no_space.
  - intros ->. discriminate.
  - now apply scanNonDecimal_shape.
  - assumption.
Qed.

End ReadBackFacts.

Section ExponentFacts.

Lemma isDigit_not_space d :
  JSString.isDigit d = true -> JSString.isWhiteSpace d = false.
Proof.
  intros H. apply plainChar_not_space. apply isDigit_bounds in H.
  unfold Spec.plainChar. lia.
Qed.

Lemma digits_no_space l :
  forallb JSString.isDigit l = true ->
  forallb (fun c => negb (JSString.isWhiteSpace c)) l = true.
Proof.
  rewrite !forallb_forall. intros H c Hc.
  now rewrite isDigit_not_space by auto.
Qed.

Lemma countDigits_pos fuel q : (1 <= JSNumber.countDigits fuel q)%nat.
Proof. destruct fuel; simpl; [lia|]. destruct (q <? 10); lia. Qed.

Lemma decimalOf_digits q :
  forallb JSString.isDigit (JSNumber.decimalOf q) = true
  /\ JSNumber.decimalOf q <> [].
Proof.
  unfold JSNumber.decimalOf, JSNumber.numDigits. split.
  - apply digitsOf_digits.
  - intros E. apply (f_equal (@List.length N)) in E.
    rewrite digitsOf_length in E. simpl in E.
    pose proof (countDigits_pos (Z.to_nat (Z.log2 q)) q). lia.
Qed.

Lemma spanDigits_stop c t :
  JSString.isDigit c = false -> JSNumber.spanDigits (c :: t) = ([], c :: t).
Proof. intros H. simpl. unfold JSNumber.isDigit. now rewrite H. Qed.

Lemma spanDigits_cons d t :
  JSString.isDigit d = true ->
  JSNumber.spanDigits (d :: t)
  = (d :: fst (JSNumber.spanDigits t), snd (JSNumber.spanDigits t)).
Proof.
  intros H. apply (spanDigits_app [d] t). simpl. now rewrite H.
Qed.

(** An ExponentPart that is the whole of what is left. *)
Lemma scanExponent_full sign digs :
  sign = 43%N \/ sign = 45%N ->
  forallb JSString.isDigit digs = true -> digs <> [] ->
  exists ex, JSNumber.scanExponent (101%N :: sign :: digs) = (ex, []).
Proof.
  intros Hs Hd Hne. unfold JSNumber.scanExponent.
  change ((101 =? 101)%N || (101 =? 69)%N) with true. cbv iota.
  destruct Hs as [-> | ->]; cbv beta iota;
    [change (43 =? 43)%N with true
    |change (45 =? 43)%N with false; change (45 =? 45)%N with true];
    cbv iota; rewrite spanDigits_all by assumption;
    destruct digs; [contradiction | eauto | contradiction | eauto].
Qed.

(** The unsigned part of exponent notation: one digit, a point and more
    digits when there are any, and an exponent. *)
Lemma scanUnsigned_exponent d rest sign digs :
  JSString.isDigit d = true -> forallb JSString.isDigit rest = true ->
  sign = 43%N \/ sign = 45%N ->
  forallb JSString.isDigit digs = true -> digs <> [] ->
  exists m e,
    JSNumber.scanUnsigned
      (match rest with
       | [] => d :: 101%N :: sign :: digs
       | _ => d :: 46%N :: rest ++ 101%N :: sign :: digs
       end)
    = Some (JSNumber.SDecimal m e, []).
Proof.
  intros Hd Hr Hs Hg Hne.
  destruct (scanExponent_full sign digs Hs Hg Hne) as [ex Hex].
  assert (H73 : forall t, JSString.startsWith (lit "Infinity") (d :: t) = None).
  { intros t.
    change (JSString.startsWith (lit "Infinity") (d :: t))
      with (if (73 =? d)%N then JSString.startsWith (lit "nfinity") t
            else None).
    apply isDigit_bounds in Hd. destruct (N.eqb_spec 73 d); [lia | easy]. }
  unfold JSNumber.scanUnsigned. destruct rest as [|r rest].
  - rewrite H73.
    rewrite spanDigits_cons by assumption.
    rewrite spanDigits_stop by reflexivity. cbn [fst snd].
    change (101 =? 46)%N with false. cbv iota. rewrite Hex. eauto.
  - rewrite H73.
    rewrite spanDigits_cons by assumption.
    rewrite spanDigits_stop by reflexivity. cbn [fst snd].
    change (46 =? 46)%N with true. cbv iota.
    rewrite (spanDigits_app (r :: rest) (101%N :: sign :: digs)) by assumption.
    rewrite spanDigits_stop by reflexivity. cbn [fst snd].
    rewrite app_nil_r, Hex. eauto.
Qed.

Lemma exponent_readsAs sgn d rest sign digs :
  sgn = [] \/ sgn = [45%N] ->
  JSString.isDigit d = true -> forallb JSString.isDigit rest = true ->
  sign = 43%N \/ sign = 45%N ->
  forallb JSString.isDigit digs = true -> digs <> [] ->
  exists v,
    readsAs (sgn ++ match rest with
                    | [] => d :: 101%N :: sign :: digs
                    | _ => d :: 46%N :: rest ++ 101%N :: sign :: digs
                    end) v
    /\ JSNumber.isNaN v = false.
Proof.
  intros Hsg Hd Hr Hs Hg Hne.
  destruct (scanUnsigned_exponent d rest sign digs Hd Hr Hs Hg Hne)
    as (m & e & Hu).
  set (body := match rest with [] => _ | _ => _ end) in *.
  assert (Hb : exists c t, body = d :: c :: t /\ (c = 101 \/ c = 46)%N).
  { unfold body. destruct rest; eauto. }
  assert (Hw : forallb (fun c => negb (JSString.isWhiteSpace c)) body = true).
  { assert (Hsn : JSString.isWhiteSpace sign = false)
      by (destruct Hs as [-> | ->]; reflexivity).
    unfold body. destruct rest as [|r rest].
    - cbn [forallb]. rewrite (isDigit_not_space d Hd), Hsn.
      now rewrite digits_no_space.
    - cbn [forallb]. rewrite (isDigit_not_space d Hd), forallb_app.
      rewrite (digits_no_space (r :: rest) Hr). cbn [forallb].
      now rewrite Hsn, digits_no_space. }
  pose proof (proj1 (isDigit_bounds d) Hd) as Bd.
  exists (JSNumber.ofDecimal (negb (Nat.eqb (List.length sgn) 0)) m e).
  split; [|apply ofDecimal_not_NaN].
  destruct Hb as (c & t & Eb & Hc). repeat split.
  - apply trim_none. rewrite forallb_app, Hw.
    destruct Hsg as [-> | ->]; reflexivity.
  - destruct Hsg as [-> | ->]; rewrite Eb; discriminate.
  - rewrite Eb. destruct Hsg as [-> | ->]; [|reflexivity].
    cbn [app]. unfold JSNumber.scanNonDecimal.
    destruct (negb (d =? 48)%N); [reflexivity|].
    destruct Hc as [-> | ->]; reflexivity.
  - unfold JSNumber.scanDecimal. destruct Hsg as [-> | ->].
    + cbn [app]. rewrite Eb.
      destruct (N.eqb_spec d 43); [lia|]. destruct (N.eqb_spec d 45); [lia|].
      rewrite <- Eb, Hu. reflexivity.
    + cbn [app]. change (45 =? 43)%N with false. change (45 =? 45)%N with true.
      cbv iota. rewrite Hu. reflexivity.
Qed.

End ExponentFacts.

Section ToStringFacts.

Lemma digitsOf_cons k s :
  (1 <= k)%nat ->
  exists d rest,
    JSNumber.digitsOf k s = d :: rest /\ JSString.isDigit d = true
    /\ forallb JSString.isDigit rest = true.
Proof.
  intros Hk. pose proof (digitsOf_digits k s) as D.
  pose proof (digitsOf_length k s) as L.
  destruct (JSNumber.digitsOf k s) as [|d rest]; simpl in *; [lia|].
  apply andb_true_iff in D as [D1 D2]. eauto.
Qed.

Lemma formatDecimal_has_digit n k s :
  (1 <= k)%nat -> (-5 <=? n) && (n <=? 21) = true ->
  existsb JSString.isDigit (JSNumber.formatDecimal n k s) = true.
Proof.
  intros Hk Hn. unfold JSNumber.formatDecimal. rewrite Hn. cbv zeta.
  destruct (digitsOf_cons k s Hk) as (d & rest & -> & Hd & _).
  destruct (Z.of_nat k <=? n).
  - simpl. now rewrite Hd.
  - destruct (Z.ltb_spec 0 n); [|reflexivity].
    destruct (Z.to_nat n) eqn:E; [lia|]. simpl. now rewrite Hd.
Qed.

(** Every number but NaN is written as a text that both [Number] and
    [parseFloat] read in full as a number. *)
Lemma toString_readsAs a :
  JSNumber.isNaN a = false ->
  exists v, readsAs (JSNumber.toString a) v /\ JSNumber.isNaN v = false.
Proof.
  intros Ha. destruct a as [sg|sg| |sg m e]; try discriminate.
  - exists (S754_zero false). repeat split. discriminate.
  - exists (S754_infinity sg). destruct sg; repeat split; discriminate.
  - pose proof (toString_plain (S754_finite sg m e)) as Hp.
    unfold JSNumber.toString, JSNumber.rendersPlain in *.
    pose proof (shortestDecimal_k m e) as Hk.
    destruct (JSNumber.shortestDecimal m e) as [[n k] s]. simpl in Hk.
    destruct ((-5 <=? n) && (n <=? 21)) eqn:Hn.
    + apply SignedDecimal_readsAs.
      * now apply numericPattern_shape, test_matches.
      * rewrite existsb_app, formatDecimal_has_digit by assumption.
        apply orb_true_r.
    + unfold JSNumber.formatDecimal. rewrite Hn. cbv zeta.
      destruct (digitsOf_cons k s Hk) as (d & rest & -> & Hd & Hr).
      destruct (decimalOf_digits (Z.abs (n - 1))) as [Hg Hne].
      apply (exponent_readsAs (if sg then [45%N] else []) d rest
               (if n <? 0 then 45%N else 43%N)
               (JSNumber.decimalOf (Z.abs (n - 1)))); auto.
      * destruct sg; auto.
      * destruct (n <? 0); auto.
Qed.

Lemma Number_toString_isNaN a :
  JSNumber.isNaN (JSNumber.Number (JSNumber.toString a)) = JSNumber.isNaN a.
Proof.
  destruct (JSNumber.isNaN a) eqn:Ha.
  - destruct a; try discriminate. reflexivity.
  - destruct (toString_readsAs a Ha) as (v & Hr & Hv).
    now rewrite (readsAs_Number _ _ Hr).
Qed.

Lemma parseFloat_toString_isNaN a :
  JSNumber.isNaN (JSNumber.parseFloat (JSNumber.toString a))
  = JSNumber.isNaN a.
Proof.
  destruct (JSNumber.isNaN a) eqn:Ha.
  - destruct a; try discriminate. reflexivity.
  - destruct (toString_readsAs a Ha) as (v & Hr & Hv).
    now rewrite (readsAs_parseFloat _ _ Hr).
Qed.

Lemma toString_nonempty a : JSNumber.toString a <> [].
Proof.
  destruct (JSNumber.isNaN a) eqn:Ha.
  - destruct a; discriminate.
  - destruct (toString_readsAs a Ha) as (v & (_ & Hne & _) & _). exact Hne.
Qed.

End ToStringFacts.

(** ** Increments, sums and the states within reach *)

Section IncrementFacts.

Lemma trimStart_shaped w : Spec.SignedDecimal w -> JSString.trimStart w = w.
Proof.
  intros H. apply trimStart_of_trim, trim_none.
  now apply SignedDecimal_no_space.
Qed.

Lemma incrementValue_isNaN text delta :
  JSNumber.isNaN delta = false ->
  JSNumber.isNaN (Spec.incrementValue text delta) = false.
Proof.
  intros Hd. unfold Spec.incrementValue. destruct text as [|c t]; [exact Hd|].
  cbv zeta. destruct (JSNumber.isNaN (JSNumber.add _ _)) eqn:E; [reflexivity|].
  cbn [orb]. destruct (negb _); [reflexivity|].
  now rewrite precise_keeps_NaN.
Qed.

Lemma incrementIfValid_reads text delta :
  JSNumber.isNaN delta = false ->
  JSNumber.isNaN
    (JSNumber.Number (NumberHandler.incrementIfValid text delta)) = false.
Proof.
  intros Hd. rewrite incrementIfValid_value, Number_toString_isNaN.
  now apply incrementValue_isNaN.
Qed.

End IncrementFacts.

Section CalculateFacts.

Lemma sub_zero_r v : JSNumber.sub v (S754_zero false) = v.
Proof. destruct v as [[|]|[|]| |]; reflexivity. Qed.

Lemma newPos_nonempty s : newPos s <> [].
Proof. apply toString_nonempty. Qed.

Lemma binary_normalize_isNaN z e sz :
  JSNumber.isNaN (binary_normalize JSNumber.prec JSNumber.emax z e sz) = false.
Proof.
  unfold binary_normalize. destruct z as [|p|p]; [reflexivity| |].
  - pose proof (binary_round_not_nan JSNumber.prec JSNumber.emax false p e).
    now destruct (binary_round _ _ _ _ _).
  - pose proof (binary_round_not_nan JSNumber.prec JSNumber.emax true p e).
    now destruct (binary_round _ _ _ _ _).
Qed.

Lemma add_finite_isNaN a b :
  JSNumber.isFinite a = true -> JSNumber.isFinite b = true ->
  JSNumber.isNaN (JSNumber.add a b) = false.
Proof.
  destruct a as [[|]|[|]| |sa ma ea], b as [[|]|[|]| |sb mb eb];
    try discriminate; try reflexivity.
  intros _ _. apply binary_normalize_isNaN.
Qed.

Lemma sub_finite_r_isNaN a b :
  JSNumber.isFinite b = true ->
  JSNumber.isNaN (JSNumber.sub a b) = JSNumber.isNaN a.
Proof.
  destruct a as [[|]|[|]| |sa ma ea], b as [[|]|[|]| |sb mb eb];
    try discriminate; try reflexivity.
  intros _. apply binary_normalize_isNaN.
Qed.

Lemma sub_finite_l_isNaN a b :
  JSNumber.isFinite a = true ->
  JSNumber.isNaN (JSNumber.sub a b) = JSNumber.isNaN b.
Proof.
  destruct a as [[|]|[|]| |sa ma ea], b as [[|]|[|]| |sb mb eb];
    try discriminate; try reflexivity.
  intros _. apply binary_normalize_isNaN.
Qed.

Lemma div_two_isNaN a :
  JSNumber.isNaN (JSNumber.div a (JSNumber.ofDecimal false 2 0))
  = JSNumber.isNaN a.
Proof.
  change (JSNumber.ofDecimal false 2 0)
    with (S754_finite false 4503599627370496 (-51)).
  destruct a as [s|s| |s m e]; try reflexivity.
  pose proof (SFdiv_finite_not_nan JSNumber.prec JSNumber.emax s m e
                false 4503599627370496 (-51)) as H.
  unfold JSNumber.div. now destruct (SFdiv _ _ _ _).
Qed.

Lemma bare_shaped w :
  Spec.SignedDecimal w -> existsb JSString.isDigit w = false -> w <> [] ->
  In w bareTexts.
Proof.
  intros (sg & ip & pt & fp & -> & Hsg & Hip & Hpt & Hfp) Hd Hne.
  rewrite !existsb_app in Hd.
  apply orb_false_iff in Hd as [_ Hd]. apply orb_false_iff in Hd as [Hi Hd].
  apply orb_false_iff in Hd as [_ Hf].
  assert (ip = []) as ->.
  { destruct ip as [|c ip]; [reflexivity|]. simpl in *.
    apply andb_true_iff in Hip as [Hc _]. now rewrite Hc in Hi. }
  assert (fp = []) as ->.
  { destruct fp as [|c fp]; [reflexivity|]. simpl in *.
    apply andb_true_iff in Hfp as [Hc _]. now rewrite Hc in Hf. }
  unfold bareTexts.
  destruct Hsg as [-> | ->], Hpt as [-> | ->]; simpl in *; auto;
    contradiction.
Qed.

End CalculateFacts.

(* ------------------------------------------------------------------ *)
(** ** The properties *)

(** X1.  [extractFirstWord] returns its argument unchanged exactly when
    the argument has the signed decimal shape (the empty text included):
    what is typed stays as typed if and only if it is of that shape. *)
Theorem extractFirstWord_fixed_iff text :
  NumberHandler.extractFirstWord text = text <-> Spec.SignedDecimal text.
Proof.
  split.
  - intros E. rewrite <- E. apply extractFirstWord_is_shaped.
  - apply extractFirstWord_shaped.
Qed.

(** X2.  [extractFirstWord] is idempotent. *)
Theorem extractFirstWord_idempotent text :
  NumberHandler.extractFirstWord (NumberHandler.extractFirstWord text)
  = NumberHandler.extractFirstWord text.
Proof. apply extractFirstWord_shaped, extractFirstWord_is_shaped. Qed.

(** X3.  One code unit in the first word that is no digit, minus or
    point, and the whole word is dropped: the result is empty. *)
Theorem extractFirstWord_rejects text c :
  In c (Spec.firstWord text) -> ~ Spec.plainChar c ->
  NumberHandler.extractFirstWord text = [].
Proof.
  intros Hc Hn. rewrite extractFirstWord_spec. cbv zeta.
  destruct (Spec.isSignedDecimal (Spec.firstWord text)) eqn:E; [|reflexivity].
  apply isSignedDecimal_iff in E. contradict Hn.
  eauto using SignedDecimal_plain.
Qed.

Lemma extractFirstWord_rejects_witness :
  In 97%N (Spec.firstWord (lit "12a")) /\ ~ Spec.plainChar 97
  /\ NumberHandler.extractFirstWord (lit "12a") = [].
Proof.
  assert (H1 : In 97%N (Spec.firstWord (lit "12a")))
    by (right; right; left; reflexivity).
  assert (H2 : ~ Spec.plainChar 97) by (unfold Spec.plainChar; lia).
  split; [exact H1 | split; [exact H2|]].
  exact (extractFirstWord_rejects (lit "12a") 97%N H1 H2).
Defined.

(** X4.  White space before a word, and a space and anything after it,
    do not matter: [extractFirstWord] gives what it gives for the word
    alone (a word being a non-empty text without white space). *)
Theorem extractFirstWord_surrounded ws w tail :
  forallb JSString.isWhiteSpace ws = true ->
  forallb (fun c => negb (JSString.isWhiteSpace c)) w = true ->
  w <> [] ->
  tail = [] \/ (exists rest, tail = 32%N :: rest) ->
  NumberHandler.extractFirstWord (ws ++ w ++ tail)
  = NumberHandler.extractFirstWord w.
Proof.
  intros Hws Hw Hne Htail. rewrite !extractFirstWord_spec. cbv zeta.
  rewrite (firstWord_surrounded ws w tail) by assumption.
  pose proof (firstWord_surrounded [] w [] eq_refl Hw Hne (or_introl eq_refl))
    as E.
  simpl in E. rewrite app_nil_r in E. now rewrite E.
Qed.

Lemma extractFirstWord_surrounded_witness :
  NumberHandler.extractFirstWord (lit "  " ++ lit "7" ++ lit " and more")
  = NumberHandler.extractFirstWord (lit "7").
Proof.
  apply (extractFirstWord_surrounded (lit "  ") (lit "7") (lit " and more"));
    [reflexivity | reflexivity | discriminate |].
  right. exists (lit "and more"). reflexivity.
Defined.

(** X5.  On a non-empty text of the signed decimal shape, [parseFloat]
    (which the increments use) and [Number] (which [calculateCenter]
    uses) give the same number. *)
Theorem parseFloat_Number_agree w :
  Spec.SignedDecimal w -> w <> [] ->
  JSNumber.parseFloat w = JSNumber.Number w.
Proof.
  intros H Hne. unfold JSNumber.parseFloat, JSNumber.Number.
  rewrite trimStart_shaped, trim_none
    by auto using SignedDecimal_no_space.
  pose proof (scanDecimal_shape w H) as Hs.
  pose proof (scanNonDecimal_shape w H) as Hn.
  destruct w as [|c w]; [contradiction|]. rewrite Hn.
  destruct (existsb JSString.isDigit (c :: w)).
  - destruct Hs as (v & -> & _). reflexivity.
  - now rewrite Hs.
Qed.

Lemma parseFloat_Number_agree_witness :
  Spec.SignedDecimal (lit "-3.") /\ lit "-3." <> []
  /\ JSNumber.parseFloat (lit "-3.") = JSNumber.Number (lit "-3.").
Proof.
  assert (H : Spec.SignedDecimal (lit "-3."))
    by (apply isSignedDecimal_iff; reflexivity).
  split; [exact H | split; [discriminate|]].
  apply (parseFloat_Number_agree (lit "-3.") H). discriminate.
Defined.

(** X6.  An increment of a field that holds a bare "-", "." or "-." (a
    non-empty text of the signed decimal shape without a digit) stores
    "0", whatever the delta. *)
Theorem incrementIfValid_bare w delta :
  Spec.SignedDecimal w -> w <> [] ->
  existsb JSString.isDigit w = false ->
  NumberHandler.incrementIfValid w delta = lit "0".
Proof.
  intros H Hne Hd. rewrite incrementIfValid_value.
  unfold Spec.incrementValue. destruct w as [|c w]; [contradiction|].
  unfold JSNumber.parseFloat. rewrite trimStart_shaped by assumption.
  pose proof (scanDecimal_shape _ H) as Hs. rewrite Hd in Hs. rewrite Hs.
  reflexivity.
Qed.

Lemma incrementIfValid_bare_witness :
  Spec.SignedDecimal (lit "-.") /\ lit "-." <> []
  /\ existsb JSString.isDigit (lit "-.") = false
  /\ NumberHandler.incrementIfValid (lit "-.") INCREMENT = lit "0".
Proof.
  assert (H : Spec.SignedDecimal (lit "-."))
    by (apply isSignedDecimal_iff; reflexivity).
  split; [exact H | split; [discriminate | split; [reflexivity|]]].
  apply (incrementIfValid_bare (lit "-.") INCREMENT H);
    [discriminate | reflexivity].
Defined.

(** X7.  With a delta that is not NaN, the text an increment stores is
    never empty and is read as a number, not as NaN, by [Number] and by
    [parseFloat] alike, exponent notation and "Infinity" included. *)
Theorem incrementIfValid_readable text delta :
  JSNumber.isNaN delta = false ->
  NumberHandler.incrementIfValid text delta <> []
  /\ JSNumber.isNaN
       (JSNumber.Number (NumberHandler.incrementIfValid text delta)) = false
  /\ JSNumber.isNaN
       (JSNumber.parseFloat (NumberHandler.incrementIfValid text delta))
     = false.
Proof.
  intros Hd. rewrite incrementIfValid_value.
  rewrite Number_toString_isNaN, parseFloat_toString_isNaN.
  auto using toString_nonempty, incrementValue_isNaN.
Qed.

Lemma incrementIfValid_readable_witness :
  JSNumber.isNaN INCREMENT = false
  /\ JSNumber.isNaN
       (JSNumber.Number
          (NumberHandler.incrementIfValid (lit "-0.0999999") INCREMENT))
     = false.
Proof.
  split; [reflexivity|].
  apply (incrementIfValid_readable (lit "-0.0999999") INCREMENT eq_refl).
Defined.

(** X8.  [precise] gives NaN for NaN only, and returns NaN and the two
    infinities as they are. *)
Theorem precise_isNaN a :
  JSNumber.isNaN (NumberHandler.precise a) = JSNumber.isNaN a
  /\ (JSNumber.isFinite a = false -> NumberHandler.precise a = a).
Proof.
  split.
  - apply precise_keeps_NaN.
  - destruct a as [s|[|]| |s m e]; try discriminate; reflexivity.
Qed.

Lemma precise_isNaN_witness :
  JSNumber.isFinite JSNumber.Infinity = false
  /\ NumberHandler.precise JSNumber.Infinity = JSNumber.Infinity.
Proof.
  split; [reflexivity|].
  exact (proj2 (precise_isNaN JSNumber.Infinity) eq_refl).
Defined.

(** X9.  Two actions that assign different parts of the state commute. *)
Theorem reducer_commute s a b p q :
  place a = Some p -> place b = Some q -> p <> q ->
  reducer (reducer s a) b = reducer (reducer s b) a.
Proof.
  destruct a, b; simpl; intros Ha Hb Hpq;
    try discriminate; try reflexivity;
    injection Ha as <-; injection Hb as <-; contradiction.
Qed.

Lemma reducer_commute_witness :
  reducer (reducer initialState (SET_AXIS axis_y))
          (INCREMENT_OFFSET_END INCREMENT)
  = reducer (reducer initialState (INCREMENT_OFFSET_END INCREMENT))
            (SET_AXIS axis_y).
Proof.
  apply (reducer_commute initialState (SET_AXIS axis_y)
           (INCREMENT_OFFSET_END INCREMENT) PAxis (PField OffsetEnd));
    [reflexivity | reflexivity | discriminate].
Defined.

(** X10.  A setter wipes out what an earlier action did to the same part
    of the state. *)
Theorem reducer_last_write_wins s a b :
  isSetter b = true -> place a = place b ->
  reducer (reducer s a) b = reducer s b.
Proof.
  destruct a, b; simpl; intros Hb Hp; try discriminate; reflexivity.
Qed.

Lemma reducer_last_write_wins_witness :
  reducer (reducer initialState (INCREMENT_PREVIOUS_POSITION INCREMENT))
          (SET_PREVIOUS_POSITION (lit "5"))
  = reducer initialState (SET_PREVIOUS_POSITION (lit "5")).
Proof.
  apply (reducer_last_write_wins initialState
           (INCREMENT_PREVIOUS_POSITION INCREMENT)
           (SET_PREVIOUS_POSITION (lit "5")));
    reflexivity.
Defined.

(** X11.  With both offsets left empty the shift is zero: the new
    position is the previous position, rounded by [precise]. *)
Theorem calculate_empty_offsets s :
  offsetStart s = [] -> offsetEnd s = [] ->
  newPosition s
  = NumberHandler.precise (JSNumber.Number (previousPosition s)).
Proof.
  intros H1 H2. unfold newPosition, shift. rewrite H1, H2. cbv zeta.
  change (JSNumber.sub (JSNumber.div (JSNumber.add (JSNumber.Number [])
            (JSNumber.Number [])) (JSNumber.ofDecimal false 2 0))
            (JSNumber.Number [])) with (S754_zero false).
  now rewrite sub_zero_r.
Qed.

Lemma calculate_empty_offsets_witness :
  offsetStart (typed axis_x "12.5" "" "") = []
  /\ newPosition (typed axis_x "12.5" "" "")
     = NumberHandler.precise (JSNumber.Number (lit "12.5")).
Proof.
  split; [reflexivity|].
  apply (calculate_empty_offsets (typed axis_x "12.5" "" ""));
    reflexivity.
Defined.

(** X12.  [calculateCenter] reads nothing but the three fields and the
    axis it copies: doing it twice, or again after the overlay was
    dismissed, or from a state with another result and flag, gives the
    same state. *)
Theorem calculateCenter_idempotent s :
  calculateCenter (calculateCenter s) = calculateCenter s
  /\ calculateCenter (run (calculateCenter s) Dismiss) = calculateCenter s
  /\ (forall r b,
        calculateCenter (reducer (reducer s (SET_RESULT r)) (SET_FINISHED b))
        = calculateCenter s).
Proof. repeat split. Qed.

(** X13.  In every state within reach of the user interface, a set
    [finished] flag comes with a non-empty result, so the result row and
    the result overlay are shown together. *)
Theorem reachable_overlay_has_result s :
  reachable s -> finished s = true ->
  result s <> [] /\ resultRowShown s = overlayShown s.
Proof.
  intros H. assert (I : finished s = true -> result s <> []).
  { induction H as [|s c H IH Hc]; [discriminate|].
    destruct c as [a|f raw|f d| | |]; try (destruct f); simpl; auto;
      try discriminate.
    intros _. apply newPos_nonempty. }
  intros Hf. split; [auto|].
  unfold resultRowShown, overlayShown. rewrite Hf.
  specialize (I Hf). destruct (result s); [contradiction | reflexivity].
Qed.

Lemma reachable_overlay_has_result_witness :
  reachable (run initialState Calculate)
  /\ finished (run initialState Calculate) = true
  /\ resultRowShown (run initialState Calculate)
     = overlayShown (run initialState Calculate).
Proof.
  assert (H : reachable (run initialState Calculate))
    by (apply (reach_step _ Calculate); [apply reach_init | exact I]).
  split; [exact H | split; [reflexivity|]].
  exact (proj2 (reachable_overlay_has_result _ H eq_refl)).
Defined.

(** X14.  In every state within reach, the result is empty or is the
    text [calculateCenter] computed in a state within reach. *)
Theorem reachable_result_computed s :
  reachable s ->
  result s = [] \/ exists s0, reachable s0 /\ result s = newPos s0.
Proof.
  induction 1 as [|s c H IH Hc]; [now left|].
  destruct c as [a|f raw|f d| | |]; try (destruct f); simpl; auto.
  right. eauto.
Qed.

Lemma reachable_result_computed_witness :
  reachable (run (run initialState Calculate) Dismiss)
  /\ (result (run (run initialState Calculate) Dismiss) = []
      \/ exists s0, reachable s0
           /\ result (run (run initialState Calculate) Dismiss) = newPos s0).
Proof.
  assert (H : reachable (run (run initialState Calculate) Dismiss)).
  { apply (reach_step _ Dismiss); [|exact I].
    apply (reach_step _ Calculate); [apply reach_init | exact I]. }
  split; [exact H|].
  exact (reachable_result_computed _ H).
Defined.

(** X15.  In every state within reach, a field that [Number] coerces to
    NaN holds "-", "." or "-.": nothing else the user interface can put
    into a field is unreadable. *)
Theorem reachable_field_NaN s f :
  reachable s ->
  JSNumber.isNaN (JSNumber.Number (field f s)) = true ->
  In (field f s) bareTexts.
Proof.
  intros H.
  assert (I : forall g,
             Spec.SignedDecimal (field g s)
             \/ JSNumber.isNaN (JSNumber.Number (field g s)) = false).
  { induction H as [|s c H IH Hc]; intros g.
    - left. destruct g; apply (extractFirstWord_is_shaped []).
    - pose proof (IH g) as IHg.
      destruct c as [a|f' raw|f' d| | |].
      + destruct g; exact IHg.
      + destruct f', g; simpl in *; try exact IHg;
          left; apply extractFirstWord_is_shaped.
      + assert (Hd : JSNumber.isNaN d = false)
          by (destruct Hc as [-> | ->]; reflexivity).
        destruct f', g; simpl in *; try exact IHg;
          right; apply (incrementIfValid_reads _ d Hd).
      + destruct g; exact IHg.
      + destruct g; exact IHg.
      + left. destruct g; apply (extractFirstWord_is_shaped []). }
  intros Hn. destruct (I f) as [Hs | Hs]; [|congruence].
  rewrite (Number_signedDecimal _ Hs) in Hn.
  apply andb_true_iff in Hn as [Hd Hl].
  apply bare_shaped; auto.
  - now apply negb_true_iff.
  - intros E. rewrite E in Hl. discriminate.
Qed.

Lemma reachable_field_NaN_witness :
  let s := run initialState (SetField OffsetStart (lit "-")) in
  reachable s
  /\ JSNumber.isNaN (JSNumber.Number (field OffsetStart s)) = true
  /\ In (field OffsetStart s) bareTexts.
Proof.
  cbv zeta.
  assert (H : reachable (run initialState (SetField OffsetStart (lit "-"))))
    by (apply (reach_step _ (SetField OffsetStart (lit "-")));
        [apply reach_init | exact I]).
  split; [exact H | split; [reflexivity|]].
  exact (reachable_field_NaN _ OffsetStart H eq_refl).
Defined.

(** X16.  When the three fields are coerced to finite numbers, the new
    position is not NaN and the result is not the text "NaN", whatever
    overflows on the way. *)
Theorem calculate_finite_no_NaN s :
  JSNumber.isFinite (JSNumber.Number (previousPosition s)) = true ->
  JSNumber.isFinite (JSNumber.Number (offsetStart s)) = true ->
  JSNumber.isFinite (JSNumber.Number (offsetEnd s)) = true ->
  JSNumber.isNaN (newPosition s) = false
  /\ result (calculateCenter s) <> lit "NaN".
Proof.
  intros Hp H1 H2.
  assert (E : JSNumber.isNaN (newPosition s) = false).
  { unfold newPosition, shift. cbv zeta.
    rewrite precise_keeps_NaN, sub_finite_l_isNaN by assumption.
    rewrite sub_finite_r_isNaN, div_two_isNaN by assumption.
    now apply add_finite_isNaN. }
  split; [exact E|].
  change (result (calculateCenter s)) with (JSNumber.toString (newPosition s)).
  destruct (toString_readsAs _ E) as (v & Hr & Hv). intros N.
  rewrite N in Hr. apply readsAs_Number in Hr. subst v. discriminate.
Qed.

Lemma calculate_finite_no_NaN_witness :
  JSNumber.isFinite (JSNumber.Number (lit "120")) = true
  /\ result (calculateCenter (typed axis_x "120" "20" "60")) <> lit "NaN".
Proof.
  split; [reflexivity|].
  exact (proj2 (calculate_finite_no_NaN (typed axis_x "120" "20" "60")
                  eq_refl eq_refl eq_refl)).
Defined.
